(** * quantum_circuit/state.py: the State vector of a set of qubits

    A shallow embedding of the [State] class of [quantum_circuit/state.py]
    and of the numpy operations it calls, followed by the properties of the
    class that its description states.

    Amplitudes are numpy [complex128] values: pairs of IEEE 754 binary64
    numbers, here Rocq's primitive floats, so every arithmetic operation
    rounds as the program's does.  The [dtype] argument of the class is
    taken at its default, [np.complex128], throughout.  A Python exception
    is a value of [exn], and a method that can raise returns a [result]. *)

From Stdlib Require Import ZArith List String Ascii Floats Bool Lia.
From Stdlib Require Import DecimalString.
Import ListNotations.

(** ** Python exceptions *)

Module Py.

Inductive exn : Set :=
| AssertionError
| OverflowError
| IndexError
| ValueError
| AttributeError
| TypeError.

Inductive result (A : Type) : Type :=
| Ok (a : A)
| Raise (e : exn).

Arguments Ok {A} a.
Arguments Raise {A} e.

Definition bind {A B : Type} (m : result A) (k : A -> result B) : result B :=
  match m with
  | Ok a => k a
  | Raise e => Raise e
  end.

(** [1 << n] on Python integers: a negative shift count is a [ValueError]. *)
Definition lshift (a n : Z) : result Z :=
  if (n <? 0)%Z then Raise ValueError else Ok (Z.shiftl a n).

(** [str(n)] for an integer. *)
Definition str_int (n : Z) : string := NilZero.string_of_int (Z.to_int n).

End Py.

Export Py.

Declare Scope py_scope.
Delimit Scope py_scope with py.
Notation "x <- m ;; k" := (bind m (fun x => k))
  (at level 61, m at next level, right associativity) : py_scope.
Open Scope py_scope.

(** ** The numpy operations the class uses *)

Module Np.

Open Scope float_scope.

(** An element of a [complex128] array. *)
Record complex128 : Set := Complex { real : float; imag : float }.

Definition of_float (x : float) : complex128 := Complex x 0.

Definition czero : complex128 := Complex 0 0.

Definition cadd (a b : complex128) : complex128 :=
  Complex (real a + real b) (imag a + imag b).

Definition csub (a b : complex128) : complex128 :=
  Complex (real a - real b) (imag a - imag b).

Definition cneg (a : complex128) : complex128 :=
  Complex (- real a) (- imag a).

Definition conj (a : complex128) : complex128 :=
  Complex (real a) (- imag a).

(** The product loop of numpy: [(ar*br - ai*bi, ar*bi + ai*br)]. *)
Definition cmul (a b : complex128) : complex128 :=
  Complex (real a * real b - imag a * imag b)
          (real a * imag b + imag a * real b).

(** The quotient loop of numpy (Smith's method).  A divisor whose two parts
    are zero does not raise: each part of the dividend is divided by the
    float zero, which gives an infinity or a NaN. *)
Definition cdiv (a b : complex128) : complex128 :=
  let in2r_abs := abs (real b) in
  let in2i_abs := abs (imag b) in
  if in2i_abs <=? in2r_abs then
    if (in2r_abs =? 0) && (in2i_abs =? 0) then
      Complex (real a / in2r_abs) (imag a / in2r_abs)
    else
      let rat := imag b / real b in
      let scl := 1 / (real b + imag b * rat) in
      Complex ((real a + imag a * rat) * scl)
              ((imag a - real a * rat) * scl)
  else
    let rat := real b / imag b in
    let scl := 1 / (imag b + real b * rat) in
    Complex ((real a * rat + imag a) * scl)
            ((imag a * rat - real a) * scl).

(** [a == b] and [a != b] on complex numbers. *)
Definition ceq (a b : complex128) : bool :=
  (real a =? real b) && (imag a =? imag b).

Definition cne (a b : complex128) : bool := negb (ceq a b).

(** The correctly rounded value of [sqrt(x^2 + y^2)] for two finite
    nonzero floats of mantissas [mx], [my] and exponents [ex], [ey]: the
    sum of the squares is formed exactly, as the integer
    [a*a + b*b] times [2^(2e)], and its square root is rounded once, to
    the nearest float (to infinity when it is too large). *)
Definition hypot_finite (mx : positive) (ex : Z) (my : positive) (ey : Z)
  : float :=
  let e := Z.min ex ey in
  let a := (Z.pos mx * 2 ^ (ex - e))%Z in
  let b := (Z.pos my * 2 ^ (ey - e))%Z in
  let '(mz, ez, lz) :=
    SFsqrt_core_binary prec emax (a * a + b * b)%Z (2 * e)%Z in
  SF2Prim (binary_round_aux prec emax false mz ez lz).

(** [hypot x y] of the C library, which [abs] of a complex number calls:
    an infinite argument gives infinity, a zero argument gives the absolute
    value of the other one, a NaN gives a NaN; elsewhere the square root of
    the sum of the squares, without overflow or underflow of the squares
    and rounded once, as IEEE 754 describes the operation. *)
Definition hypot (x y : float) : float :=
  if (abs x =? infinity) || (abs y =? infinity) then infinity
  else if y =? 0 then abs x
  else if x =? 0 then abs y
  else
    match Prim2SF x, Prim2SF y with
    | S754_finite _ mx ex, S754_finite _ my ey => hypot_finite mx ex my ey
    | _, _ => nan
    end.

Definition cabs (a : complex128) : float := hypot (real a) (imag a).

(** [np.square]. *)
Definition square (x : float) : float := x * x.

(** [np.zeros(n)]. *)
Definition zeros (n : Z) : list complex128 := repeat czero (Z.to_nat n).

(** An integer index into an array of length [n]: a negative index counts
    from the end, an index outside [-n .. n-1] is an [IndexError]. *)
Definition index (n : nat) (i : Z) : result nat :=
  let len := Z.of_nat n in
  if ((0 <=? i) && (i <? len))%Z then Ok (Z.to_nat i)
  else if ((- len <=? i) && (i <? 0))%Z then Ok (Z.to_nat (len + i))
  else Raise IndexError.

(** [arr[i]]. *)
Definition getitem (arr : list complex128) (i : Z) : result complex128 :=
  k <- index (List.length arr) i ;;
  Ok (nth k arr czero).

Fixpoint update (arr : list complex128) (k : nat) (v : complex128)
  : list complex128 :=
  match arr, k with
  | [], _ => []
  | _ :: tl, O => v :: tl
  | hd :: tl, S k' => hd :: update tl k' v
  end.

(** [arr[i] = v], as a new list. *)
Definition setitem (arr : list complex128) (i : Z) (v : complex128)
  : result (list complex128) :=
  k <- index (List.length arr) i ;;
  Ok (update arr k v).

Fixpoint map2 (f : complex128 -> complex128 -> complex128)
  (a b : list complex128) : list complex128 :=
  match a, b with
  | x :: a', y :: b' => f x y :: map2 f a' b'
  | _, _ => []
  end.

(** A binary element-wise operation on two one-dimensional arrays, with
    numpy's broadcasting: equal lengths pair up, an array of length one is
    stretched over the other, anything else is a [ValueError]. *)
Definition broadcast (f : complex128 -> complex128 -> complex128)
  (a b : list complex128) : result (list complex128) :=
  if (List.length a =? List.length b)%nat then Ok (map2 f a b)
  else
    match a, b with
    | [x], _ => Ok (map (f x) b)
    | _, [y] => Ok (map (fun x => f x y) a)
    | _, _ => Raise ValueError
    end.

(** [a.dot(b)] on one-dimensional arrays: the lengths must agree, and the
    products are summed from index 0 upwards, starting from zero. *)
Definition dot (a b : list complex128) : result complex128 :=
  if (List.length a =? List.length b)%nat
  then Ok (fold_left cadd (map2 cmul a b) czero)
  else Raise ValueError.

(** [int(np.log2(n))] for a length [n].  [np.log2(0)] is [-inf], which
    [int] refuses with an [OverflowError].  For a positive [n] the value is
    taken as the exact floor of the logarithm; the class uses it only
    through the test [1 << q == n], which succeeds exactly when [n] is
    [2^q], and on a power of two [np.log2] is exact. *)
Definition int_log2 (n : Z) : result Z :=
  if (n =? 0)%Z then Raise OverflowError else Ok (Z.log2 n).

(** [np.isfinite]. *)
Definition isfinite (x : float) : bool := is_finite x.

(** [np.isclose(a, b, rtol, atol)] on two floats: two finite numbers are
    close when [|a - b| <= atol + rtol * |b|]; when one of them is an
    infinity or a NaN they are close only if they are equal. *)
Definition isclose (a b rtol atol : float) : bool :=
  if isfinite a && isfinite b then abs (a - b) <=? atol + rtol * abs b
  else a =? b.

End Np.

(** ** Python's ['%.3f' % x] *)

Module Fmt.

Open Scope string_scope.
Open Scope Z_scope.

(** The quotient [num / den] rounded to the nearest integer, a tie going to
    the even one, as the conversion of a binary float to decimals does. *)
Definition round_half_even (num den : Z) : Z :=
  let q := num / den in
  let r := num mod den in
  match 2 * r ?= den with
  | Lt => q
  | Gt => q + 1
  | Eq => if Z.even q then q else q + 1
  end.

(** A number of thousandths written with three decimals. *)
Definition fixed3 (negative : bool) (thousandths : Z) : string :=
  (if negative then "-" else "")
  ++ str_int (thousandths / 1000) ++ "."
  ++ str_int (thousandths / 100 mod 10)
  ++ str_int (thousandths / 10 mod 10)
  ++ str_int (thousandths mod 10).

(** ['%.3f' % x]: the exact value [m * 2^e] of the float, rounded to three
    decimals. *)
Definition percent_3f (x : float) : string :=
  match Prim2SF x with
  | S754_nan => "nan"
  | S754_infinity s => if s then "-inf" else "inf"
  | S754_zero s => fixed3 s 0
  | S754_finite s m e =>
      fixed3 s (if 0 <=? e then Z.pos m * 1000 * 2 ^ e
                else round_half_even (Z.pos m * 1000) (2 ^ (- e)))
  end.

End Fmt.

(** ** The class [State] *)

Module State.

Import Np Fmt.

Record t : Set := Build {
  amplitudes : list complex128;
  basis_size : Z;
  qubit_count : Z
}.

(** What a method of the class can be handed or can return: a [State], a
    bare number, or a bare sequence of amplitudes. *)
Inductive pyval : Set :=
| PState (s : t)
| PNum (c : complex128)
| PSeq (l : list complex128).

(** [State(initial_state)]. *)
Definition __init__ (initial_state : list complex128) : result t :=
  let amplitudes := initial_state in
  let basis_size := Z.of_nat (List.length amplitudes) in
  qubit_count <- int_log2 basis_size ;;
  p <- lshift 1 qubit_count ;;
  if (p =? basis_size)%Z
  then Ok (Build amplitudes basis_size qubit_count)
  else Raise AssertionError.

Definition __getitem__ (self : t) (item : Z) : result complex128 :=
  getitem (amplitudes self) item.

Definition __setitem__ (self : t) (key : Z) (value : complex128) : result t :=
  a <- setitem (amplitudes self) key value ;;
  Ok (Build a (basis_size self) (qubit_count self)).

(** [iter(v)]: a [State] and a sequence give their amplitudes, a number is
    not iterable. *)
Definition iter (v : pyval) : result (list complex128) :=
  match v with
  | PState s => Ok (amplitudes s)
  | PSeq l => Ok l
  | PNum _ => Raise TypeError
  end.

(** The loop of [__eq__] over [zip(self, state)]. *)
Fixpoint zip_equal (a b : list complex128) : bool :=
  match a, b with
  | i :: a', j :: b' => if cne i j then false else zip_equal a' b'
  | _, _ => true
  end.

Definition is_state (v : pyval) : bool :=
  match v with PState _ => true | _ => false end.

Definition qubit_count_differs (self : t) (v : pyval) : bool :=
  match v with
  | PState s => negb (qubit_count self =? qubit_count s)%Z
  | _ => false
  end.

Definition __eq__ (self : t) (state : pyval) : result bool :=
  if is_state state && qubit_count_differs self state then Ok false
  else
    items <- iter state ;;
    Ok (zip_equal (amplitudes self) items).

(** [v.amplitudes]: only a [State] has the attribute. *)
Definition amplitudes_of (v : pyval) : result (list complex128) :=
  match v with
  | PState s => Ok (amplitudes s)
  | _ => Raise AttributeError
  end.

(** [v.real]: a number has a real part, a [State] or a list has not. *)
Definition real_of (v : pyval) : result float :=
  match v with
  | PNum c => Ok (real c)
  | _ => Raise AttributeError
  end.

Definition __add__ (self : t) (state : pyval) : result t :=
  b <- amplitudes_of state ;;
  r <- broadcast cadd (amplitudes self) b ;;
  __init__ r.

(** [other == 0] for the left operand of [__radd__]. *)
Definition equals_zero (other : pyval) : result bool :=
  match other with
  | PNum c => Ok (ceq c czero)
  | PSeq _ => Ok false
  | PState s => __eq__ s (PNum czero)
  end.

Definition __radd__ (self : t) (other : pyval) : result t :=
  z <- equals_zero other ;;
  if z then __init__ (amplitudes self)
  else __add__ self other.

Definition __sub__ (self : t) (state : pyval) : result t :=
  b <- amplitudes_of state ;;
  r <- broadcast csub (amplitudes self) b ;;
  __init__ r.

Definition __neg__ (self : t) : result t :=
  __init__ (map cneg (amplitudes self)).

Definition __mul__ (self : t) (other : pyval) : result pyval :=
  match other with
  | PState o =>
      c <- dot (map conj (amplitudes self)) (amplitudes o) ;;
      Ok (PNum c)
  | PNum c =>
      s <- __init__ (map (cmul c) (amplitudes self)) ;;
      Ok (PState s)
  | PSeq l =>
      r <- broadcast cmul l (amplitudes self) ;;
      s <- __init__ r ;;
      Ok (PState s)
  end.

Definition __rmul__ (self : t) (number : pyval) : result pyval :=
  __mul__ self number.

Definition __truediv__ (self : t) (number : complex128) : result t :=
  __init__ (map (fun a => cdiv a number) (amplitudes self)).

Definition norm (self : t) : result float :=
  p <- __mul__ self (PState self) ;;
  r <- real_of p ;;
  Ok (sqrt r).

Definition prob_of_bs (self : t) (basis_state : Z) (normalize : bool)
  : result float :=
  if normalize then
    a <- __getitem__ self basis_state ;;
    p <- __mul__ self (PState self) ;;
    r <- real_of p ;;
    Ok (square (cabs a) / r)%float
  else
    a <- __getitem__ self basis_state ;;
    Ok (square (cabs a)).

(** The loop of [random_measure_bs], entered with the label and the sum
    reached so far.  Every turn moves to the next label, so the fuel
    bounds the number of turns; [None] is the fuel running out. *)
Fixpoint walk (fuel : nat) (self : t) (sample : float)
  (basis_state : Z) (acc : float) : option (result Z) :=
  if (acc <? sample)%float then
    match fuel with
    | O => None
    | S fuel' =>
        let basis_state := (basis_state + 1)%Z in
        match prob_of_bs self basis_state true with
        | Raise e => Some (Raise e)
        | Ok p => walk fuel' self sample basis_state (acc + p)%float
        end
    end
  else Some (Ok basis_state).

(** [random_measure_bs], given the number [sample] that
    [np.random.random_sample()] drew.  The label cannot pass the length of
    the amplitudes without an [IndexError], so that many turns suffice. *)
Definition random_measure_bs (self : t) (sample : float)
  : option (result Z) :=
  let basis_state := 0%Z in
  match prob_of_bs self basis_state true with
  | Raise e => Some (Raise e)
  | Ok acc => walk (List.length (amplitudes self)) self sample basis_state acc
  end.

Definition from_basis_state (qubit_count basis_state : Z) : result t :=
  n <- lshift 1 qubit_count ;;
  let state := zeros n in
  bound <- lshift 1 qubit_count ;;
  if (basis_state <? bound)%Z then
    state <- setitem state basis_state (of_float 1) ;;
    __init__ state
  else Raise AssertionError.

(** [is_normalized]; the defaults of [rtol] and [atol] are [1e-5] and
    [1e-8]. *)
Definition is_normalized (self : t) (rtol atol : float) : result bool :=
  n <- norm self ;;
  Ok (isclose n 1 rtol atol).

(** [abs(v)]: a number has a modulus; a [State] and a list do not define
    [abs]. *)
Definition abs_of (v : pyval) : result float :=
  match v with
  | PNum c => Ok (cabs c)
  | _ => Raise TypeError
  end.

(** [prob_of_state], for a [state] that is a [State], as documented. *)
Definition prob_of_state (self state : t) (normalize : bool) : result float :=
  p <- __mul__ self (PState state) ;;
  a <- abs_of p ;;
  let prob := square a in
  if normalize then
    ss <- __mul__ self (PState self) ;;
    r1 <- real_of ss ;;
    tt <- __mul__ state (PState state) ;;
    r2 <- real_of tt ;;
    let norm := (r1 * r2)%float in
    Ok (prob / norm)%float
  else Ok prob.

(** The sum in [random_measure_qubit]: the generator visits the labels in
    order, keeps those in which the bit [1 << qubit] is set, and [sum]
    adds their probabilities to its start value 0. *)
Fixpoint sum_prob_set (self : t) (qubit : Z) (labels : list Z) (acc : float)
  : result float :=
  match labels with
  | [] => Ok acc
  | bs :: rest =>
      mask <- lshift 1 qubit ;;
      if negb (Z.land mask bs =? 0)%Z then
        p <- prob_of_bs self bs true ;;
        sum_prob_set self qubit rest (acc + p)%float
      else sum_prob_set self qubit rest acc
  end.

(** [range(n)]. *)
Definition range (n : Z) : list Z := map Z.of_nat (seq 0 (Z.to_nat n)).

(** [random_measure_qubit], given the number [sample] that
    [np.random.random_sample()] draws. *)
Definition random_measure_qubit (self : t) (qubit : Z) (sample : float)
  : result Z :=
  prob_set <- sum_prob_set self qubit (range (basis_size self)) 0%float ;;
  if (sample <? prob_set)%float then Ok 1%Z else Ok 0%Z.

(** *** [__str__] *)

Open Scope string_scope.

(** The inner function [sign]. *)
Definition sign (num : float) : string :=
  if (0 <? num)%float then "+" else "-".

(** The value of [rep] before the label is appended: [[sign, number]].
    The first [if]/[elif] assigns it for a purely real or a purely
    imaginary amplitude and leaves it unassigned otherwise; the
    [if]/[else] that follows is not chained to it and assigns [rep] again
    on either branch. *)
Definition rep_of (amp : complex128) : string * string :=
  let imag := imag amp in
  let real := real amp in
  let rep : option (string * string) :=
    if (imag =? 0)%float then Some (sign real, percent_3f (abs real))
    else if (real =? 0)%float then
      Some (sign imag, percent_3f (abs imag) ++ "j")
    else None in
  let rep : string * string :=
    if (imag <? 0)%float && (real <? 0)%float then
      ("-", percent_3f (- real)%float ++ " " ++ sign (- imag)%float
            ++ " j " ++ percent_3f (- imag)%float)
    else
      ("+", "(" ++ percent_3f real ++ " + j " ++ percent_3f imag ++ ")")
  in
  rep.

(** [parts] after the entry of [amp] at [label] is added. *)
Definition add_entry (parts : list string) (amp : complex128) (label : Z)
  : list string :=
  let '(sgn, number) := rep_of amp in
  let ket := "|" ++ str_int label ++ ">" in
  if (List.length parts =? 0)%nat then
    if String.eqb sgn "-" then parts ++ ["-" ++ number] ++ [ket]
    else parts ++ [number; ket]
  else parts ++ [sgn; number; ket].

(** The [for] loop over [zip(self, range(self.basis_size))]. *)
Fixpoint entries (items : list (complex128 * Z)) (parts : list string)
  : list string :=
  match items with
  | [] => parts
  | (amp, label) :: rest =>
      if ceq amp czero then entries rest parts
      else entries rest (add_entry parts amp label)
  end.

Definition __str__ (self : t) : result string :=
  n <- norm self ;;
  if (n =? 0)%float then Ok "0 |0>"
  else
    Ok (String.concat " "
          (entries (combine (amplitudes self) (range (basis_size self))) [])).

End State.

(** * Notions used in the statements *)

Import Np State.

(** A float is a number when it is not a NaN. *)
Definition number (x : float) : Prop := Prim2SF x <> S754_nan.

(** What [__init__] establishes: [basis_size] is the number of amplitudes
    and equals [2 ^ qubit_count]. *)
Definition valid (s : State.t) : Prop :=
  basis_size s = Z.of_nat (List.length (amplitudes s))
  /\ (0 <= qubit_count s)%Z
  /\ basis_size s = (2 ^ qubit_count s)%Z.

(** The amplitudes of [State([x0, x1, ...])] for real numbers. *)
Definition reals (l : list float) : list complex128 := map of_float l.

(** The vector with amplitude 1 at index [k] and 0 elsewhere. *)
Definition one_hot (n : Z) (k : nat) : list complex128 :=
  update (zeros n) k (of_float 1).

(** The States used as examples: [State([1])], [State([1, 0])],
    [State([0, 1])], [State([1, 0, 1, 0])] and [State([1, 1, 0, 0])]. *)
Definition st_1 : State.t := State.Build (reals [1]%float) 1 0.
Definition st_10 : State.t := State.Build (reals [1; 0]%float) 2 1.
Definition st_01 : State.t := State.Build (reals [0; 1]%float) 2 1.
Definition st_1010 : State.t := State.Build (reals [1; 0; 1; 0]%float) 4 2.
Definition st_1100 : State.t := State.Build (reals [1; 1; 0; 0]%float) 4 2.

(** [State([1, 1, 1, 1, 1, 1, 1, 0])], and the largest float below 1, which
    is [1 - 2^-53] and which [np.random.random_sample()] can draw. *)
Definition st_7of8 : State.t :=
  State.Build (reals [1; 1; 1; 1; 1; 1; 1; 0]%float) 8 3.

Definition below_one : float := 0x1.fffffffffffffp-1%float.

(** The value of [(self * self).real]: the sum of the squared moduli of the
    amplitudes, of which [norm] is the square root. *)
Definition inner_self (s : State.t) : float :=
  real (fold_left cadd
          (map2 cmul (map conj (amplitudes s)) (amplitudes s)) czero).

(** The probability of the label [k], as a float. *)
Definition prob (s : State.t) (k : nat) : float :=
  (square (cabs (nth k (amplitudes s) czero)) / inner_self s)%float.

(** The sum of the probabilities of the labels [0 .. k], added in that
    order, as the loop of [random_measure_bs] holds it in [acc]. *)
Fixpoint running_sum (s : State.t) (k : nat) : float :=
  match k with
  | O => prob s 0
  | S j => (running_sum s j + prob s k)%float
  end.

(** The place in an array of length [n] that the index [i] names: a
    negative index counts from the end. *)
Definition position (n : nat) (i : Z) : nat :=
  Z.to_nat (if (i <? 0)%Z then Z.of_nat n + i else i).

(** The default tolerances of [is_normalized]: the binary64 numbers that
    the literals [1e-5] and [1e-8] denote. *)
Definition default_rtol : float := 0x1.4f8b588e368f1p-17%float.
Definition default_atol : float := 0x1.5798ee2308c3ap-27%float.

(** A State whose amplitudes all compare equal to zero. *)
Definition all_zero (s : State.t) : Prop :=
  Forall (fun a => ceq a czero = true) (amplitudes s).

(** The entries of [__str__] whose amplitude does not compare equal to
    zero, and the three parts that the loop adds for an entry when it is
    not the first one. *)
Definition nonzero_entries (items : list (complex128 * Z))
  : list (complex128 * Z) :=
  filter (fun it => negb (ceq (fst it) czero)) items.

Definition later_term (it : complex128 * Z) : list string :=
  [fst (rep_of (fst it)); snd (rep_of (fst it));
   ("|" ++ str_int (snd it) ++ ">")%string].

(** The sign of a float is [sx], or the float is a NaN. *)
Definition sf_sign (sx : bool) (f : spec_float) : Prop :=
  match f with
  | S754_nan => True
  | S754_zero s | S754_infinity s | S754_finite s _ _ => s = sx
  end.

(** A float that is a NaN or has the sign bit clear. *)
Definition not_negative (x : float) : Prop := sf_sign false (Prim2SF x).

(** What every partial sum of [conj(a) . a] satisfies. *)
Definition real_sum (c : complex128) : Prop :=
  (imag c = 0%float \/ imag c = nan) /\ not_negative (real c).


(** [State([3+4j, 12j])]. *)
Definition st_34_12 : State.t :=
  State.Build [Complex 3 4; Complex 0 12] 2 1.

(** * Properties *)

(** ** Facts on binary64 comparisons *)

Module FloatFacts.

Open Scope float_scope.

Lemma SFcompare_antisym (x y : spec_float) :
  SFcompare y x = option_map CompOpp (SFcompare x y).
Proof.
  destruct x as [sx|sx| |sx mx ex], y as [sy|sy| |sy my ey]; simpl;
    try reflexivity;
    try (destruct sx; reflexivity); try (destruct sy; reflexivity);
    try (destruct sx, sy; reflexivity).
  destruct sx, sy; try reflexivity; rewrite (Z.compare_antisym ex ey);
    destruct (ex ?= ey)%Z; simpl; try reflexivity; f_equal.
  - f_equal. exact (eq_sym (Pos.compare_cont_antisym mx my Eq)).
  - exact (eq_sym (Pos.compare_cont_antisym mx my Eq)).
Qed.

Lemma ltb_asym (x y : float) : (x <? y) = true -> (y <? x) = false.
Proof.
  rewrite !ltb_spec. unfold SFltb.
  rewrite (SFcompare_antisym (Prim2SF x) (Prim2SF y)).
  destruct (SFcompare (Prim2SF x) (Prim2SF y)) as [[| |]|]; simpl; congruence.
Qed.

Lemma leb_not_ltb (x y : float) : (x <=? y) = true -> (y <? x) = false.
Proof.
  rewrite ltb_spec, leb_spec. unfold SFltb, SFleb.
  rewrite (SFcompare_antisym (Prim2SF x) (Prim2SF y)).
  destruct (SFcompare (Prim2SF x) (Prim2SF y)) as [[| |]|]; simpl; congruence.
Qed.

Lemma ltb_leb (x y : float) : (x <? y) = true -> (x <=? y) = true.
Proof.
  rewrite ltb_spec, leb_spec. unfold SFltb, SFleb.
  destruct (SFcompare (Prim2SF x) (Prim2SF y)) as [[| |]|]; congruence.
Qed.

Lemma leb_number_l (x y : float) : (x <=? y) = true -> number x.
Proof.
  rewrite leb_spec. unfold SFleb, number. intros H E. rewrite E in H.
  discriminate.
Qed.

Lemma leb_number_r (x y : float) : (x <=? y) = true -> number y.
Proof.
  rewrite leb_spec. unfold SFleb, number. intros H E. rewrite E in H.
  destruct (Prim2SF x); discriminate.
Qed.

(** Two numbers are comparable: when [x <= y] fails, [y < x] holds. *)
Lemma not_leb_ltb (x y : float) :
  number x -> number y -> (x <=? y) = false -> (y <? x) = true.
Proof.
  unfold number. rewrite ltb_spec, leb_spec. unfold SFltb, SFleb.
  rewrite (SFcompare_antisym (Prim2SF x) (Prim2SF y)).
  intros Hx Hy.
  assert (H : exists c, SFcompare (Prim2SF x) (Prim2SF y) = Some c).
  { destruct (Prim2SF x) as [sx|sx| |sx mx ex]; try congruence;
      destruct (Prim2SF y) as [sy|sy| |sy my ey]; try congruence;
      simpl; eauto. }
  destruct H as [c ->]. destruct c; simpl; congruence.
Qed.

(** A sum that is a number has a left summand that is one. *)
Lemma add_number_l (x y : float) : number (x + y) -> number x.
Proof.
  unfold number. rewrite add_spec. intros H E. apply H. rewrite E.
  reflexivity.
Qed.

(** A float equal to zero, of either sign, has absolute value [+0]. *)
Lemma eqb_zero_abs (x : float) : (x =? 0) = true -> abs x = 0.
Proof.
  rewrite FloatAxioms.eqb_spec. intros H. apply Prim2SF_inj.
  rewrite abs_spec. change (Prim2SF 0) with (S754_zero false) in *.
  destruct (Prim2SF x) as [s|s| |s m e]; simpl in *;
    try discriminate; try reflexivity; destruct s; discriminate.
Qed.

End FloatFacts.

(** ** The invariant of a constructed [State] *)

Lemma lshift_nonneg (a n : Z) : (0 <= n)%Z -> lshift a n = Ok (Z.shiftl a n).
Proof.
  intros H. unfold lshift. destruct (n <? 0)%Z eqn:E; [lia | reflexivity].
Qed.

Lemma init_pow2 (l : list complex128) (n : Z) :
  (0 <= n)%Z -> Z.of_nat (List.length l) = (2 ^ n)%Z ->
  __init__ l = Ok (State.Build l (2 ^ n) n).
Proof.
  intros Hn Hl. unfold __init__, int_log2. rewrite Hl.
  assert (Hpos : (0 < 2 ^ n)%Z) by (apply Z.pow_pos_nonneg; lia).
  destruct (2 ^ n =? 0)%Z eqn:E; [lia|]. simpl.
  rewrite Z.log2_pow2 by assumption.
  rewrite lshift_nonneg by assumption. simpl.
  rewrite Z.shiftl_1_l, Z.eqb_refl. reflexivity.
Qed.

Lemma init_ok_inv (l : list complex128) (s : State.t) :
  __init__ l = Ok s ->
  amplitudes s = l /\ valid s.
Proof.
  unfold __init__, int_log2.
  destruct (Z.of_nat (List.length l) =? 0)%Z eqn:E0; [discriminate|]. simpl.
  rewrite lshift_nonneg by apply Z.log2_nonneg. simpl.
  destruct (Z.shiftl 1 _ =? _)%Z eqn:E; [|discriminate].
  intros H. injection H as <-. apply Z.eqb_eq in E.
  rewrite Z.shiftl_1_l in E. unfold valid. simpl.
  repeat split; auto using Z.log2_nonneg.
Qed.

Lemma init_valid (s : State.t) (l : list complex128) :
  valid s -> List.length l = List.length (amplitudes s) ->
  __init__ l = Ok (State.Build l (basis_size s) (qubit_count s)).
Proof.
  intros (Hb & Hq & Hp) Hl. rewrite Hp. apply init_pow2; [assumption|].
  rewrite Hl, <- Hb. exact Hp.
Qed.

Lemma init_amplitudes (s : State.t) :
  valid s -> __init__ (amplitudes s) = Ok s.
Proof.
  intros H. rewrite (init_valid s (amplitudes s) H eq_refl).
  destruct s; reflexivity.
Qed.

Lemma init_not_pow2 (l : list complex128) :
  l <> [] ->
  (forall n : Z, (0 <= n)%Z -> Z.of_nat (List.length l) <> (2 ^ n)%Z) ->
  __init__ l = Raise AssertionError.
Proof.
  intros Hne Hnp. unfold __init__, int_log2.
  destruct (Z.of_nat (List.length l) =? 0)%Z eqn:E0.
  - destruct l; [congruence | simpl in E0; lia].
  - simpl. rewrite lshift_nonneg by apply Z.log2_nonneg. simpl.
    rewrite Z.shiftl_1_l.
    destruct (2 ^ _ =? _)%Z eqn:E; [|reflexivity].
    apply Z.eqb_eq in E. exfalso.
    apply (Hnp (Z.log2 (Z.of_nat (List.length l)))); auto using Z.log2_nonneg.
Qed.

(** ** Construction *)

(** C8: constructing a State from a sequence of amplitudes fails exactly
    when the length of the sequence is not a power of two, with the
    [AssertionError] of the size check (for the empty sequence, with the
    [OverflowError] of [int(np.log2(0))] before that check); a sequence of
    length 3 fails; and a sequence of length [2^n] gives a State whose
    [qubit_count] is [n]. *)
Theorem init_power_of_two :
  (forall l : list complex128,
     (exists e, __init__ l = Raise e)
     <-> ~ (exists n : nat, Z.of_nat (List.length l) = 2 ^ Z.of_nat n)%Z)
  /\ (forall l : list complex128,
        ~ (exists n : nat, Z.of_nat (List.length l) = 2 ^ Z.of_nat n)%Z ->
        __init__ l = Raise AssertionError
        \/ (l = [] /\ __init__ l = Raise OverflowError))
  /\ (forall a b c : complex128, __init__ [a; b; c] = Raise AssertionError)
  /\ (forall (l : list complex128) (n : nat),
        (Z.of_nat (List.length l) = 2 ^ Z.of_nat n)%Z ->
        exists s, __init__ l = Ok s
                  /\ qubit_count s = Z.of_nat n
                  /\ basis_size s = (2 ^ Z.of_nat n)%Z
                  /\ amplitudes s = l).
Proof.
  assert (Hfail : forall l : list complex128,
    ~ (exists n : nat, Z.of_nat (List.length l) = 2 ^ Z.of_nat n)%Z ->
    __init__ l = Raise AssertionError
    \/ (l = [] /\ __init__ l = Raise OverflowError)).
  { intros l Hn. destruct l as [|a l].
    - right. split; reflexivity.
    - left. apply init_not_pow2; [discriminate|].
      intros n Hn0 E. apply Hn. exists (Z.to_nat n).
      rewrite Z2Nat.id by assumption. exact E. }
  assert (Hok : forall (l : list complex128) (n : nat),
    (Z.of_nat (List.length l) = 2 ^ Z.of_nat n)%Z ->
    exists s, __init__ l = Ok s /\ qubit_count s = Z.of_nat n
              /\ basis_size s = (2 ^ Z.of_nat n)%Z /\ amplitudes s = l).
  { intros l n E. eexists. split.
    - apply (init_pow2 l (Z.of_nat n)); [apply Nat2Z.is_nonneg | exact E].
    - simpl. auto. }
  split; [|split; [exact Hfail|split; [reflexivity | exact Hok]]].
  intros l. split.
  - intros [e He] [n Hn]. destruct (Hok l n Hn) as (s & Hs & _). congruence.
  - intros Hn. destruct (Hfail l Hn) as [H|[_ H]]; eauto.
Qed.

Lemma init_power_of_two_witness :
  exists s, __init__ (reals [1; 0; 1; 0]%float) = Ok s
            /\ qubit_count s = 2%Z
            /\ basis_size s = 4%Z
            /\ amplitudes s = reals [1; 0; 1; 0]%float.
Proof.
  exact (proj2 (proj2 (proj2 init_power_of_two))
           (reals [1; 0; 1; 0]%float) 2%nat eq_refl).
Defined.

(** ** The basis-state factory *)

Lemma update_length (l : list complex128) (k : nat) (v : complex128) :
  List.length (update l k v) = List.length l.
Proof.
  revert k. induction l as [|a l IH]; intros [|k]; simpl; auto.
Qed.

Lemma nth_update (l : list complex128) (k i : nat) (v : complex128) :
  (k < List.length l)%nat ->
  nth i (update l k v) czero = if (i =? k)%nat then v else nth i l czero.
Proof.
  revert k i. induction l as [|a l IH]; intros k i Hk; simpl in Hk; [lia|].
  destruct k as [|k], i as [|i]; simpl; try reflexivity.
  apply IH. lia.
Qed.

Lemma zeros_length (n : Z) : List.length (zeros n) = Z.to_nat n.
Proof. unfold zeros. apply repeat_length. Qed.

Lemma nth_zeros (n : Z) (i : nat) : nth i (zeros n) czero = czero.
Proof.
  unfold zeros. generalize (Z.to_nat n). intros m. revert i.
  induction m as [|m IH]; intros [|i]; simpl; auto.
Qed.

Lemma one_hot_length (n : Z) (k : nat) :
  List.length (one_hot n k) = Z.to_nat n.
Proof. unfold one_hot. rewrite update_length. apply zeros_length. Qed.

Lemma nth_one_hot (n : Z) (k i : nat) :
  (k < Z.to_nat n)%nat ->
  nth i (one_hot n k) czero = if (i =? k)%nat then of_float 1 else czero.
Proof.
  intros Hk. unfold one_hot. rewrite nth_update by (rewrite zeros_length; lia).
  rewrite nth_zeros. reflexivity.
Qed.

Lemma init_one_hot (n : Z) (k : nat) :
  (0 <= n)%Z ->
  __init__ (one_hot (2 ^ n) k)
  = Ok (State.Build (one_hot (2 ^ n) k) (2 ^ n) n).
Proof.
  intros Hn. apply init_pow2; [assumption|].
  rewrite one_hot_length. apply Z2Nat.id. apply Z.pow_nonneg. lia.
Qed.

(** A label in [0 .. 2^n - 1] gives the State of [2^n] amplitudes that is
    1 at the label and 0 elsewhere. *)
Lemma from_basis_state_in_range (n b : Z) :
  (0 <= n)%Z -> (0 <= b < 2 ^ n)%Z ->
  from_basis_state n b
  = Ok (State.Build (one_hot (2 ^ n) (Z.to_nat b)) (2 ^ n) n)
  /\ forall i : nat,
       nth i (one_hot (2 ^ n) (Z.to_nat b)) czero
       = if (i =? Z.to_nat b)%nat then of_float 1 else czero.
Proof.
  intros Hn Hb. split.
  - unfold from_basis_state. rewrite lshift_nonneg by assumption. simpl.
    rewrite Z.shiftl_1_l. destruct (b <? 2 ^ n)%Z eqn:E; [|lia].
    unfold setitem, index. rewrite zeros_length, Z2Nat.id by lia.
    destruct ((0 <=? b) && (b <? 2 ^ n))%Z eqn:E1; [|lia]. simpl.
    apply init_one_hot. assumption.
  - intros i. apply nth_one_hot. lia.
Qed.

(** A label of [2^n] or more is refused by the assertion. *)
Lemma from_basis_state_too_large (n b : Z) :
  (0 <= n)%Z -> (2 ^ n <= b)%Z ->
  from_basis_state n b = Raise AssertionError.
Proof.
  intros Hn Hb. unfold from_basis_state.
  rewrite lshift_nonneg by assumption. simpl. rewrite Z.shiftl_1_l.
  destruct (b <? 2 ^ n)%Z eqn:E; [lia | reflexivity].
Qed.

(** A negative label in [-2^n .. -1] passes the assertion, which only
    bounds the label from above, and indexes the vector from its end. *)
Lemma from_basis_state_negative (n b : Z) :
  (0 <= n)%Z -> (- 2 ^ n <= b < 0)%Z ->
  from_basis_state n b
  = Ok (State.Build (one_hot (2 ^ n) (Z.to_nat (2 ^ n + b))) (2 ^ n) n).
Proof.
  intros Hn Hb. unfold from_basis_state.
  rewrite lshift_nonneg by assumption. simpl. rewrite Z.shiftl_1_l.
  destruct (b <? 2 ^ n)%Z eqn:E; [|lia].
  unfold setitem, index. rewrite zeros_length, Z2Nat.id by lia.
  destruct ((0 <=? b) && (b <? 2 ^ n))%Z eqn:E1; [lia|].
  destruct ((- 2 ^ n <=? b) && (b <? 0))%Z eqn:E2; [|lia]. simpl.
  apply init_one_hot. assumption.
Qed.

(** A label below [-2^n] passes the assertion too and fails only at the
    assignment, with an [IndexError]. *)
Lemma from_basis_state_far_negative (n b : Z) :
  (0 <= n)%Z -> (b < - 2 ^ n)%Z ->
  from_basis_state n b = Raise IndexError.
Proof.
  intros Hn Hb. unfold from_basis_state.
  assert (0 < 2 ^ n)%Z by (apply Z.pow_pos_nonneg; lia).
  rewrite lshift_nonneg by assumption. simpl. rewrite Z.shiftl_1_l.
  destruct (b <? 2 ^ n)%Z eqn:E; [|lia].
  unfold setitem, index. rewrite zeros_length, Z2Nat.id by lia.
  destruct ((0 <=? b) && (b <? 2 ^ n))%Z eqn:E1; [lia|].
  destruct ((- 2 ^ n <=? b) && (b <? 0))%Z eqn:E2; [lia|]. reflexivity.
Qed.

(** C2, at the input where the code departs from it: the negative label
    [-1] for two qubits is not refused; [from_basis_state(2, -1)] returns
    the State with amplitude 1 at label 3.  (The label 5 is refused, and
    the label 0 of four qubits gives 16 amplitudes, the first one 1.) *)
Theorem from_basis_state_minus_one :
  from_basis_state 2 (-1)
  = Ok (State.Build (reals [0; 0; 0; 1]%float) 4 2)
  /\ from_basis_state 2 5 = Raise AssertionError
  /\ from_basis_state 4 0
     = Ok (State.Build (of_float 1%float :: repeat czero 15) 16 4).
Proof. repeat split. Qed.

(** ** Algebraic operators *)

Lemma examples_constructed :
  __init__ (reals [1]%float) = Ok st_1
  /\ __init__ (reals [1; 0]%float) = Ok st_10
  /\ __init__ (reals [0; 1]%float) = Ok st_01
  /\ __init__ (reals [1; 0; 1; 0]%float) = Ok st_1010
  /\ __init__ (reals [1; 1; 0; 0]%float) = Ok st_1100.
Proof. repeat split. Qed.

Lemma valid_st_1 : valid st_1.
Proof. apply (init_ok_inv (reals [1]%float)). reflexivity. Qed.

Lemma valid_st_10 : valid st_10.
Proof. apply (init_ok_inv (reals [1; 0]%float)). reflexivity. Qed.

Lemma valid_st_01 : valid st_01.
Proof. apply (init_ok_inv (reals [0; 1]%float)). reflexivity. Qed.

Lemma valid_st_1010 : valid st_1010.
Proof. apply (init_ok_inv (reals [1; 0; 1; 0]%float)). reflexivity. Qed.

Lemma valid_st_1100 : valid st_1100.
Proof. apply (init_ok_inv (reals [1; 1; 0; 0]%float)). reflexivity. Qed.

Lemma valid_length_pos (s : State.t) :
  valid s -> (0 < List.length (amplitudes s))%nat.
Proof.
  intros (Hb & Hq & Hp).
  assert (0 < 2 ^ qubit_count s)%Z by (apply Z.pow_pos_nonneg; lia). lia.
Qed.

Lemma valid_size_one (s : State.t) :
  valid s -> basis_size s = 1%Z -> exists x, amplitudes s = [x].
Proof.
  intros (Hb & _) H1. rewrite H1 in Hb.
  destruct (amplitudes s) as [|x [|y l]]; simpl in Hb; try lia. eauto.
Qed.

Lemma broadcast_mismatch (f : complex128 -> complex128 -> complex128)
  (a b : list complex128) :
  List.length a <> List.length b ->
  List.length a <> 1%nat -> List.length b <> 1%nat ->
  broadcast f a b = Raise ValueError.
Proof.
  intros Hab Ha Hb. unfold broadcast.
  destruct (List.length a =? List.length b)%nat eqn:E;
    [apply Nat.eqb_eq in E; contradiction|].
  destruct a as [|x [|x' a]], b as [|y [|y' b]]; simpl in *;
    try reflexivity; congruence.
Qed.

Lemma broadcast_left_one (f : complex128 -> complex128 -> complex128)
  (x : complex128) (b : list complex128) :
  List.length b <> 1%nat -> broadcast f [x] b = Ok (map (f x) b).
Proof.
  intros Hb. unfold broadcast.
  destruct (List.length [x] =? List.length b)%nat eqn:E; [|reflexivity].
  apply Nat.eqb_eq in E. simpl in E. congruence.
Qed.

Lemma broadcast_right_one (f : complex128 -> complex128 -> complex128)
  (a : list complex128) (y : complex128) :
  List.length a <> 1%nat ->
  broadcast f a [y] = Ok (map (fun x => f x y) a).
Proof.
  intros Ha. unfold broadcast.
  destruct (List.length a =? List.length [y])%nat eqn:E.
  - apply Nat.eqb_eq in E. simpl in E. congruence.
  - destruct a as [|x [|x' a]]; reflexivity.
Qed.

Section Mismatch.

Variables s t : State.t.
Hypothesis valid_s : valid s.
Hypothesis valid_t : valid t.
Hypothesis sizes_differ : basis_size s <> basis_size t.

Lemma lengths_differ :
  List.length (amplitudes s) <> List.length (amplitudes t).
Proof.
  destruct valid_s as (Hs & _), valid_t as (Ht & _). intros E.
  apply sizes_differ. congruence.
Qed.

(** Neither State has a single amplitude: numpy cannot broadcast. *)
Lemma add_sub_no_broadcast :
  basis_size s <> 1%Z -> basis_size t <> 1%Z ->
  __add__ s (PState t) = Raise ValueError
  /\ __sub__ s (PState t) = Raise ValueError.
Proof.
  intros Hs1 Ht1.
  destruct valid_s as (Hs & _), valid_t as (Ht & _).
  unfold __add__, __sub__. simpl.
  rewrite !broadcast_mismatch by (try exact lengths_differ; lia).
  split; reflexivity.
Qed.

(** The left State has a single amplitude, which is stretched. *)
Lemma add_sub_broadcast_left :
  basis_size s = 1%Z ->
  exists x, amplitudes s = [x]
    /\ __add__ s (PState t)
       = Ok (State.Build (map (cadd x) (amplitudes t))
               (basis_size t) (qubit_count t))
    /\ __sub__ s (PState t)
       = Ok (State.Build (map (csub x) (amplitudes t))
               (basis_size t) (qubit_count t)).
Proof.
  intros Hs1. destruct (valid_size_one s valid_s Hs1) as [x Hx].
  exists x. split; [assumption|].
  assert (Ht1 : List.length (amplitudes t) <> 1%nat).
  { destruct valid_t as (Ht & _). lia. }
  unfold __add__, __sub__. simpl. rewrite Hx.
  rewrite !broadcast_left_one by assumption. simpl.
  split; apply init_valid; auto using length_map.
Qed.

(** The right State has a single amplitude, which is stretched. *)
Lemma add_sub_broadcast_right :
  basis_size t = 1%Z ->
  exists y, amplitudes t = [y]
    /\ __add__ s (PState t)
       = Ok (State.Build (map (fun x => cadd x y) (amplitudes s))
               (basis_size s) (qubit_count s))
    /\ __sub__ s (PState t)
       = Ok (State.Build (map (fun x => csub x y) (amplitudes s))
               (basis_size s) (qubit_count s)).
Proof.
  intros Ht1. destruct (valid_size_one t valid_t Ht1) as [y Hy].
  exists y. split; [assumption|].
  assert (Hs1 : List.length (amplitudes s) <> 1%nat).
  { destruct valid_s as (Hs & _). lia. }
  unfold __add__, __sub__. simpl. rewrite Hy.
  rewrite !broadcast_right_one by assumption. simpl.
  split; apply init_valid; auto using length_map.
Qed.

End Mismatch.

(** C4, as the code has it: for two States of different [basis_size],
    [add] and [sub] both fail (with numpy's [ValueError]) when neither
    [basis_size] is 1; when one of the two States has [basis_size] 1, its
    single amplitude is broadcast over the amplitudes of the other and a
    State of the larger [basis_size] is returned. *)
Theorem add_sub_mismatched_sizes (s t : State.t) :
  valid s -> valid t -> basis_size s <> basis_size t ->
  (basis_size s <> 1%Z -> basis_size t <> 1%Z ->
   __add__ s (PState t) = Raise ValueError
   /\ __sub__ s (PState t) = Raise ValueError)
  /\ (basis_size s = 1%Z ->
      exists x, amplitudes s = [x]
        /\ __add__ s (PState t)
           = Ok (State.Build (map (cadd x) (amplitudes t))
                   (basis_size t) (qubit_count t))
        /\ __sub__ s (PState t)
           = Ok (State.Build (map (csub x) (amplitudes t))
                   (basis_size t) (qubit_count t)))
  /\ (basis_size t = 1%Z ->
      exists y, amplitudes t = [y]
        /\ __add__ s (PState t)
           = Ok (State.Build (map (fun x => cadd x y) (amplitudes s))
                   (basis_size s) (qubit_count s))
        /\ __sub__ s (PState t)
           = Ok (State.Build (map (fun x => csub x y) (amplitudes s))
                   (basis_size s) (qubit_count s))).
Proof.
  intros Hs Ht Hd. split; [|split].
  - apply add_sub_no_broadcast; assumption.
  - apply add_sub_broadcast_left; assumption.
  - apply add_sub_broadcast_right; assumption.
Qed.

Lemma add_sub_mismatched_sizes_witness :
  __add__ st_10 (PState st_1010) = Raise ValueError
  /\ __sub__ st_10 (PState st_1010) = Raise ValueError.
Proof.
  apply (add_sub_mismatched_sizes st_10 st_1010 valid_st_10 valid_st_1010);
    simpl; discriminate.
Defined.

(** C4 fails as stated: [State([1]) + State([1, 0, 1, 0])] and the
    difference of the two are States, not failures. *)
Lemma add_sub_size_one_broadcasts :
  basis_size st_1 <> basis_size st_1010
  /\ __add__ st_1 (PState st_1010)
     = Ok (State.Build (reals [2; 1; 2; 1]%float) 4 2)
  /\ __sub__ st_1 (PState st_1010)
     = Ok (State.Build (reals [0; 1; 0; 1]%float) 4 2)
  /\ (forall e, __add__ st_1 (PState st_1010) <> Raise e)
  /\ (forall e, __sub__ st_1 (PState st_1010) <> Raise e).
Proof.
  repeat split; try discriminate.
Qed.

(** C5: for a State [s] and a bare number [c], [c + s] (which Python
    hands to [__radd__]) returns a State equal to [s] when [c] is zero, and
    fails when [c] is not zero: the code then evaluates [s + c], and a
    number has no amplitudes ([AttributeError]). *)
Theorem radd_zero_neutral (s : State.t) (c : complex128) :
  valid s ->
  (ceq c czero = true -> __radd__ s (PNum c) = Ok s)
  /\ (ceq c czero = false -> __radd__ s (PNum c) = Raise AttributeError).
Proof.
  intros Hs. unfold __radd__. simpl. split; intros ->.
  - apply init_amplitudes. assumption.
  - reflexivity.
Qed.

Lemma radd_zero_neutral_witness :
  __radd__ st_01 (PNum (of_float 0%float)) = Ok st_01
  /\ __radd__ st_01 (PNum (of_float 5%float)) = Raise AttributeError.
Proof.
  split.
  - apply (radd_zero_neutral st_01 (of_float 0%float) valid_st_01).
    reflexivity.
  - apply (radd_zero_neutral st_01 (of_float 5%float) valid_st_01).
    reflexivity.
Defined.

(** With the State on the left, [s + c] is [__add__] and fails for every
    number [c], zero included. *)
Lemma add_number_fails (s : State.t) (c : complex128) :
  __add__ s (PNum c) = Raise AttributeError.
Proof. reflexivity. Qed.

(** The docstring's [(0 + s) == s] on [State([0, 1])]. *)
Example radd_docstring :
  (r <- __radd__ st_01 (PNum (of_float 0%float)) ;; __eq__ r (PState st_01))
  = Ok true.
Proof. reflexivity. Qed.

(** Division by a zero scalar, element by element. *)
Lemma cdiv_zero (a c : complex128) :
  ceq c czero = true ->
  cdiv a c = Complex (real a / 0)%float (imag a / 0)%float.
Proof.
  unfold ceq, czero. simpl. intros H. apply andb_prop in H as [Hr Hi].
  unfold cdiv. rewrite (FloatFacts.eqb_zero_abs _ Hr).
  rewrite (FloatFacts.eqb_zero_abs _ Hi). reflexivity.
Qed.

(** C3, as the code has it: dividing a State by a zero scalar does not
    fail.  numpy divides each part of each amplitude by the float zero, so
    the result is a State of the same size whose amplitudes are made of
    infinities and NaNs; and division by any scalar at all returns a State
    of the same size. *)
Theorem truediv_zero_returns (s : State.t) (c : complex128) :
  valid s ->
  (ceq c czero = true ->
   __truediv__ s c
   = Ok (State.Build
           (map (fun a => Complex (real a / 0)%float (imag a / 0)%float)
                (amplitudes s))
           (basis_size s) (qubit_count s)))
  /\ exists r : State.t,
       __truediv__ s c = Ok r
       /\ basis_size r = basis_size s
       /\ amplitudes r = map (fun a => cdiv a c) (amplitudes s).
Proof.
  intros Hs. unfold __truediv__. split.
  - intros Hc.
    rewrite (map_ext (fun a => cdiv a c)
               (fun a => Complex (real a / 0)%float (imag a / 0)%float))
      by (intros a; apply cdiv_zero; assumption).
    apply init_valid; auto using length_map.
  - exists (State.Build (map (fun a => cdiv a c) (amplitudes s))
              (basis_size s) (qubit_count s)).
    split; [apply init_valid; auto using length_map|].
    split; reflexivity.
Qed.

Lemma truediv_zero_returns_witness :
  __truediv__ st_10 czero
  = Ok (State.Build [Complex infinity nan; Complex nan nan] 2 1).
Proof.
  exact (proj1 (truediv_zero_returns st_10 czero valid_st_10) eq_refl).
Defined.

(** C3 fails as stated: [State([1, 0]) / 0] is a State, with the
    amplitudes [inf + nan j] and [nan + nan j], and no failure. *)
Lemma truediv_zero_no_failure :
  ceq czero czero = true
  /\ __truediv__ st_10 czero
     = Ok (State.Build [Complex infinity nan; Complex nan nan] 2 1)
  /\ forall e, __truediv__ st_10 czero <> Raise e.
Proof. repeat split. discriminate. Qed.

(** The loop of [__eq__] stops at the end of the shorter sequence. *)
Lemma zip_equal_prefix (q a : list complex128) :
  (forall i : nat, (i < List.length q)%nat ->
     ceq (nth i a czero) (nth i q czero) = true) ->
  zip_equal a q = true.
Proof.
  revert a. induction q as [|j q IH]; intros [|i a] H; try reflexivity.
  assert (H0 : ceq i j = true) by (apply (H 0%nat); simpl; lia).
  simpl. unfold cne. rewrite H0. simpl.
  apply IH. intros k Hk. apply (H (S k)). simpl. lia.
Qed.

(** C10: comparing a State with a bare sequence does not look at the
    length of the sequence: a sequence shorter than the State whose entries
    equal the amplitudes at the same labels, the empty sequence too,
    compares equal. *)
Theorem eq_ignores_length (s : State.t) (q : list complex128) :
  valid s ->
  (Z.of_nat (List.length q) < basis_size s)%Z ->
  (forall i : nat, (i < List.length q)%nat ->
     ceq (nth i (amplitudes s) czero) (nth i q czero) = true) ->
  __eq__ s (PSeq q) = Ok true /\ __eq__ s (PSeq []) = Ok true.
Proof.
  intros _ _ H. unfold __eq__. simpl. split.
  - rewrite zip_equal_prefix by assumption. reflexivity.
  - destruct (amplitudes s); reflexivity.
Qed.

Lemma eq_ignores_length_witness :
  __eq__ st_1010 (PSeq (reals [1; 0]%float)) = Ok true
  /\ __eq__ st_1010 (PSeq []) = Ok true.
Proof.
  apply (eq_ignores_length st_1010 (reals [1; 0]%float) valid_st_1010).
  - simpl. lia.
  - intros [|[|i]] Hi; try reflexivity. simpl in Hi. lia.
Defined.

(** ** Probabilities *)

Lemma mul_self (s : State.t) :
  __mul__ s (PState s)
  = Ok (PNum (fold_left cadd
                (map2 cmul (map conj (amplitudes s)) (amplitudes s)) czero)).
Proof.
  unfold __mul__, dot. rewrite length_map, Nat.eqb_refl. reflexivity.
Qed.

Lemma norm_self (s : State.t) : norm s = Ok (sqrt (inner_self s)).
Proof. unfold norm. rewrite mul_self. reflexivity. Qed.

Lemma getitem_in_range (s : State.t) (m : Z) :
  (0 <= m < Z.of_nat (List.length (amplitudes s)))%Z ->
  __getitem__ s m = Ok (nth (Z.to_nat m) (amplitudes s) czero).
Proof.
  intros Hm. unfold __getitem__, getitem, index.
  destruct ((0 <=? m) && (m <? Z.of_nat (List.length (amplitudes s))))%Z
    eqn:E; [reflexivity | lia].
Qed.

Lemma getitem_at_length (s : State.t) :
  __getitem__ s (Z.of_nat (List.length (amplitudes s))) = Raise IndexError.
Proof.
  unfold __getitem__, getitem, index.
  set (n := Z.of_nat (List.length (amplitudes s))).
  destruct ((0 <=? n) && (n <? n))%Z eqn:E1; [lia|].
  destruct ((- n <=? n) && (n <? 0))%Z eqn:E2; [lia | reflexivity].
Qed.

Lemma prob_of_bs_in_range (s : State.t) (m : Z) :
  (0 <= m < Z.of_nat (List.length (amplitudes s)))%Z ->
  prob_of_bs s m true = Ok (prob s (Z.to_nat m))
  /\ prob_of_bs s m false
     = Ok (square (cabs (nth (Z.to_nat m) (amplitudes s) czero))).
Proof.
  intros Hm. unfold prob_of_bs.
  rewrite (getitem_in_range s m Hm), mul_self. split; reflexivity.
Qed.

Lemma prob_of_bs_at_length (s : State.t) :
  prob_of_bs s (Z.of_nat (List.length (amplitudes s))) true
  = Raise IndexError.
Proof. unfold prob_of_bs. rewrite getitem_at_length. reflexivity. Qed.

(** The squared norm of [State([1, 0, 1, 0])] is 2, and the probability of
    the label 2 is [0.5] normalized and 1 as it stands. *)
Example prob_of_bs_1010 :
  inner_self st_1010 = 2%float
  /\ prob_of_bs st_1010 2 true = Ok 0.5%float
  /\ prob_of_bs st_1010 2 false = Ok 1%float.
Proof. repeat split. Qed.

(** ** Measurement *)

(** A boolean property that holds at [k] has a first label at which it
    holds. *)
Lemma first_true (P : nat -> bool) (k : nat) :
  P k = true ->
  exists m : nat, (m <= k)%nat /\ P m = true
                  /\ forall j : nat, (j < m)%nat -> P j = false.
Proof.
  induction k as [k IH] using lt_wf_ind. intros Hk.
  destruct (existsb P (seq 0 k)) eqn:E.
  - apply existsb_exists in E as (j & Hj & HPj). apply in_seq in Hj.
    destruct (IH j ltac:(lia) HPj) as (m & Hm & HPm & Hmin).
    exists m. repeat split; [lia | assumption | assumption].
  - exists k. repeat split; [lia | assumption |].
    intros j Hj. destruct (P j) eqn:Ej; [|reflexivity].
    assert (existsb P (seq 0 k) = true); [|congruence].
    apply existsb_exists. exists j. split; [apply in_seq; lia | assumption].
Qed.

Section Walk.

Variable s : State.t.
Variable u : float.

Let n : nat := List.length (amplitudes s).

Lemma prob_of_bs_nat (k : nat) :
  (k < n)%nat -> prob_of_bs s (Z.of_nat k) true = Ok (prob s k).
Proof.
  intros Hk. rewrite (proj1 (prob_of_bs_in_range s (Z.of_nat k)
                               ltac:(unfold n in Hk; lia))).
  rewrite Nat2Z.id. reflexivity.
Qed.

(** The fuel that [random_measure_bs] gives the loop is never used up. *)
Lemma walk_total (fuel j : nat) (acc : float) :
  (j < n)%nat -> (n <= j + fuel)%nat ->
  walk fuel s u (Z.of_nat j) acc <> None.
Proof.
  revert j acc. induction fuel as [|fuel IH]; intros j acc Hj Hf;
    cbn [walk]; destruct (acc <? u)%float; try discriminate; [lia|].
  replace (Z.of_nat j + 1)%Z with (Z.of_nat (S j)) by lia.
  destruct (Nat.eq_dec (S j) n) as [E|E].
  - rewrite E. unfold n. rewrite prob_of_bs_at_length. discriminate.
  - rewrite prob_of_bs_nat by lia. apply IH; lia.
Qed.

Lemma random_measure_bs_total : random_measure_bs s u <> None.
Proof.
  unfold random_measure_bs. destruct (Nat.eq_dec n 0) as [E|E].
  - assert (H : prob_of_bs s 0 true = Raise IndexError).
    { generalize (prob_of_bs_at_length s). fold n. rewrite E. auto. }
    rewrite H. discriminate.
  - assert (H : prob_of_bs s 0 true = Ok (prob s 0))
      by (apply (prob_of_bs_nat 0); lia).
    rewrite H. apply (walk_total n 0); lia.
Qed.

(** From the label [j], with the running sum below [u] at every label
    before [j + d] and not below [u] there, the loop returns [j + d]. *)
Lemma walk_crossing (d : nat) :
  forall fuel j : nat,
    (j + d < n)%nat -> (d <= fuel)%nat ->
    (forall i : nat, (j <= i < j + d)%nat ->
       (running_sum s i <? u)%float = true) ->
    (running_sum s (j + d) <? u)%float = false ->
    walk fuel s u (Z.of_nat j) (running_sum s j)
    = Some (Ok (Z.of_nat (j + d))).
Proof.
  induction d as [|d IH]; intros fuel j Hn Hf Hlt Hge.
  - rewrite Nat.add_0_r in *.
    destruct fuel; cbn [walk]; rewrite Hge; reflexivity.
  - destruct fuel as [|fuel]; [lia|]. cbn [walk].
    rewrite (Hlt j) by lia.
    replace (Z.of_nat j + 1)%Z with (Z.of_nat (S j)) by lia.
    rewrite prob_of_bs_nat by lia.
    replace (j + S d)%nat with (S j + d)%nat in * by lia.
    apply (IH fuel (S j)); try lia; try assumption.
    intros i Hi. apply Hlt. lia.
Qed.

Lemma running_sum_number (k j : nat) :
  number (running_sum s k) -> (j <= k)%nat ->
  number (running_sum s j).
Proof.
  induction k as [|k IH]; intros Hk Hj.
  - replace j with 0%nat by lia. assumption.
  - destruct (Nat.eq_dec j (S k)) as [->|E]; [assumption|].
    apply IH; [|lia]. simpl in Hk.
    exact (FloatFacts.add_number_l _ _ Hk).
Qed.

(** When [k] is the first label at which the running sum reaches or
    exceeds [u], [random_measure_bs] returns [k]. *)
Lemma random_measure_bs_first_crossing (k : nat) :
  (k < n)%nat ->
  (u <=? running_sum s k)%float = true ->
  (forall j : nat, (j < k)%nat -> (u <=? running_sum s j)%float = false) ->
  random_measure_bs s u = Some (Ok (Z.of_nat k)).
Proof.
  intros Hk Hge Hlt. unfold random_measure_bs.
  assert (H : prob_of_bs s 0 true = Ok (prob s 0))
    by (apply (prob_of_bs_nat 0); lia).
  rewrite H. fold n. change (prob s 0) with (running_sum s 0).
  apply (walk_crossing k n 0); simpl; try lia.
  - intros i Hi. apply FloatFacts.not_leb_ltb.
    + exact (FloatFacts.leb_number_l _ _ Hge).
    + apply (running_sum_number k); [|lia].
      exact (FloatFacts.leb_number_r _ _ Hge).
    + apply Hlt. lia.
  - apply FloatFacts.leb_not_ltb. assumption.
Qed.

(** X25: when the running sum reaches or exceeds [u] at some label of the
    State, [random_measure_bs] returns the first such label. *)
Lemma random_measure_bs_reached :
  (exists k : nat, (k < n)%nat /\ (u <=? running_sum s k)%float = true) ->
  exists k : nat,
    random_measure_bs s u = Some (Ok (Z.of_nat k))
    /\ (k < n)%nat
    /\ (u <=? running_sum s k)%float = true
    /\ forall j : nat, (j < k)%nat -> (u <=? running_sum s j)%float = false.
Proof.
  intros [k [Hk Hge]].
  destruct (first_true (fun j => (u <=? running_sum s j)%float) k Hge)
    as (m & Hm & Hum & Hmin).
  exists m. repeat split; try assumption; try lia.
  apply random_measure_bs_first_crossing; try assumption. lia.
Qed.

End Walk.

(** On [State([1, 1, 0, 0])] the running sum is [0.5] at the label 0 and
    1 at the label 1, so a draw below 1 never gets past the label 1. *)
Lemma random_measure_bs_1100 (u : float) :
  (u <? 1)%float = true ->
  random_measure_bs st_1100 u = Some (Ok 0%Z)
  \/ random_measure_bs st_1100 u = Some (Ok 1%Z).
Proof.
  intros Hu. destruct (u <=? running_sum st_1100 0)%float eqn:E.
  - left. apply (random_measure_bs_first_crossing st_1100 u 0).
    + simpl. lia.
    + assumption.
    + intros j Hj. lia.
  - right. apply (random_measure_bs_first_crossing st_1100 u 1).
    + simpl. lia.
    + apply FloatFacts.ltb_leb. exact Hu.
    + intros j Hj. replace j with 0%nat by lia. assumption.
Qed.

(** C7, at the input where the code departs from it: on
    [State([1, 1, 1, 1, 1, 1, 1, 0])] every probability is the float
    [1/7] or 0 and the running sum ends at [1 - 2^-52]; for the draw
    [1 - 2^-53], which lies in [0, 1), the sum reaches the draw at no
    label, the loop walks past the last label and the method raises an
    [IndexError] instead of returning a label. *)
Theorem random_measure_bs_sum_short :
  __init__ (reals [1; 1; 1; 1; 1; 1; 1; 0]%float) = Ok st_7of8
  /\ (0 <=? below_one)%float = true
  /\ (below_one <? 1)%float = true
  /\ running_sum st_7of8 7 = 0x1.ffffffffffffep-1%float
  /\ (running_sum st_7of8 7 <? below_one)%float = true
  /\ forallb (fun k => negb (below_one <=? running_sum st_7of8 k)%float)
       (seq 0 8) = true
  /\ random_measure_bs st_7of8 below_one = Some (Raise IndexError).
Proof. repeat split; vm_compute; reflexivity. Qed.

(** ** The textual form *)

Lemma eqb_zero_not_ltb (x : float) :
  (x =? 0)%float = true -> (x <? 0)%float = false.
Proof.
  rewrite FloatAxioms.eqb_spec, ltb_spec. unfold SFeqb, SFltb.
  destruct (SFcompare (Prim2SF x) (Prim2SF 0)) as [[| |]|]; congruence.
Qed.

(** For an amplitude without imaginary part, the value that the first
    [if] gives [rep] is lost: the second [if] takes its [else] branch and
    [rep] is the combined form with the sign [+]. *)
Lemma rep_of_real (amp : complex128) :
  (imag amp =? 0)%float = true ->
  rep_of amp
  = ("+", "(" ++ Fmt.percent_3f (real amp) ++ " + j "
          ++ Fmt.percent_3f (imag amp) ++ ")")%string.
Proof.
  intros H. unfold rep_of. rewrite (eqb_zero_not_ltb _ H). reflexivity.
Qed.

(** C1, at the input where the code departs from it: [State([1, 0, 1, 0])]
    is printed with the two terms of the labels 0 and 2, in that order,
    the zero amplitudes skipped, but each magnitude is the combined form
    [(1.000 + j 0.000)] and not [1.000], which the docstring of the class
    shows. *)
Theorem str_1010 :
  __str__ st_1010
  = Ok "(1.000 + j 0.000) |0> + (1.000 + j 0.000) |2>"%string
  /\ __str__ st_1010 <> Ok "1.000 |0> + 1.000 |2>"%string.
Proof. split; [reflexivity | discriminate]. Qed.

(** * Further properties of the class *)

(** ** More facts on binary64 arithmetic *)

Module FloatAlgebra.

Open Scope float_scope.

Lemma SFcompare_refl (x : spec_float) :
  x <> S754_nan -> SFcompare x x = Some Eq.
Proof.
  destruct x as [s|s| |s m e]; intros H; simpl; try congruence.
  - destruct s; reflexivity.
  - rewrite Z.compare_refl.
    assert (E : Pos.compare_cont Eq m m = Eq) by apply Pos.compare_cont_refl.
    destruct s; f_equal; [|exact E].
    change (CompOpp (Pos.compare_cont Eq m m) = Eq). rewrite E. reflexivity.
Qed.

Lemma eqb_sym (x y : float) : (x =? y) = (y =? x).
Proof.
  rewrite !FloatAxioms.eqb_spec. unfold SFeqb.
  rewrite (FloatFacts.SFcompare_antisym (Prim2SF y) (Prim2SF x)).
  destruct (SFcompare (Prim2SF y) (Prim2SF x)) as [[| |]|]; reflexivity.
Qed.

Lemma eqb_refl_number (x : float) : (x =? x) = true <-> number x.
Proof.
  rewrite FloatAxioms.eqb_spec. unfold SFeqb, number. split.
  - intros H E. rewrite E in H. discriminate.
  - intros H. rewrite (SFcompare_refl _ H). reflexivity.
Qed.

Lemma ltb_nan_l (u : float) : (nan <? u) = false.
Proof. rewrite ltb_spec. reflexivity. Qed.

Lemma ltb_nan_r (u : float) : (u <? nan) = false.
Proof.
  rewrite ltb_spec. unfold SFltb.
  change (Prim2SF nan) with S754_nan. destruct (Prim2SF u); reflexivity.
Qed.

Lemma SFopp_involutive (x : spec_float) : SFopp (SFopp x) = x.
Proof. destruct x as [s|s| |s m e]; simpl; rewrite ?negb_involutive; auto. Qed.

Lemma opp_involutive (x : float) : - - x = x.
Proof.
  apply Prim2SF_inj. rewrite !opp_spec. apply SFopp_involutive.
Qed.

(** The two floats that compare equal to zero. *)
Lemma eqb_zero_cases (x : float) : (x =? 0) = true -> x = 0 \/ x = -0.
Proof.
  rewrite FloatAxioms.eqb_spec. intros H.
  change (Prim2SF 0) with (S754_zero false) in H.
  destruct (Prim2SF x) as [s|s| |s m e] eqn:E; simpl in H;
    try discriminate; try (destruct s; discriminate).
  destruct s; [right|left]; apply Prim2SF_inj; rewrite E; reflexivity.
Qed.

Lemma SFsub_add_opp (x y : spec_float) :
  SFsub prec emax x y = SFadd prec emax x (SFopp y).
Proof.
  destruct x as [sx|sx| |sx mx ex], y as [sy|sy| |sy my ey]; simpl;
    try reflexivity;
    destruct sx, sy; reflexivity.
Qed.

(** Subtracting is adding the opposite. *)
Lemma sub_add_opp (x y : float) : x - y = x + - y.
Proof.
  apply Prim2SF_inj. rewrite sub_spec, add_spec, opp_spec.
  apply SFsub_add_opp.
Qed.

End FloatAlgebra.

(** ** Reading and writing one amplitude *)

Lemma index_in_range (n : nat) (i : Z) :
  (- Z.of_nat n <= i < Z.of_nat n)%Z ->
  index n i = Ok (position n i) /\ (position n i < n)%nat.
Proof.
  intros Hi.
  assert (P : position n i
              = if (0 <=? i)%Z then Z.to_nat i
                else Z.to_nat (Z.of_nat n + i)).
  { unfold position. destruct (i <? 0)%Z eqn:E, (0 <=? i)%Z eqn:E'; lia. }
  split.
  - rewrite P. unfold index.
    destruct ((0 <=? i) && (i <? Z.of_nat n))%Z eqn:E1.
    + destruct (0 <=? i)%Z; [reflexivity | discriminate].
    + destruct ((- Z.of_nat n <=? i) && (i <? 0))%Z eqn:E2; [|lia].
      destruct (0 <=? i)%Z eqn:E3; [lia | reflexivity].
  - rewrite P. destruct (0 <=? i)%Z eqn:E; lia.
Qed.

Lemma index_out_of_range (n : nat) (i : Z) :
  (i < - Z.of_nat n \/ Z.of_nat n <= i)%Z -> index n i = Raise IndexError.
Proof.
  intros Hi. unfold index.
  destruct ((0 <=? i) && (i <? Z.of_nat n))%Z eqn:E1; [lia|].
  destruct ((- Z.of_nat n <=? i) && (i <? 0))%Z eqn:E2; [lia|].
  reflexivity.
Qed.

(** X1: writing the amplitude [v] at an index of the State, counted from
    either end, gives a State of the same size that satisfies the
    invariant, holds [v] at that index and holds the former amplitude at
    every other place. *)
Theorem setitem_then_getitem (s : State.t) (k : Z) (v : complex128) :
  valid s -> (- basis_size s <= k < basis_size s)%Z ->
  exists s' : State.t,
    __setitem__ s k v = Ok s'
    /\ valid s'
    /\ basis_size s' = basis_size s
    /\ qubit_count s' = qubit_count s
    /\ __getitem__ s' k = Ok v
    /\ forall j : Z,
         (- basis_size s <= j < basis_size s)%Z ->
         position (List.length (amplitudes s)) j
         <> position (List.length (amplitudes s)) k ->
         __getitem__ s' j = __getitem__ s j.
Proof.
  intros Hs Hk. pose proof Hs as (Hb & Hq & Hp). rewrite Hb in Hk.
  destruct (index_in_range _ k Hk) as [Hik Hpk].
  exists (State.Build (update (amplitudes s)
                         (position (List.length (amplitudes s)) k) v)
            (basis_size s) (qubit_count s)).
  unfold __setitem__, __getitem__, setitem, getitem. simpl.
  rewrite update_length, Hik. simpl.
  repeat split; try assumption.
  - simpl. rewrite update_length. assumption.
  - rewrite nth_update by assumption. rewrite Nat.eqb_refl. reflexivity.
  - intros j Hj Hne. rewrite Hb in Hj.
    destruct (index_in_range _ j Hj) as [Hij Hpj]. rewrite Hij. simpl.
    rewrite nth_update by assumption.
    destruct (Nat.eqb_spec (position (List.length (amplitudes s)) j)
                (position (List.length (amplitudes s)) k));
      [contradiction | reflexivity].
Qed.

Lemma setitem_then_getitem_witness :
  exists s' : State.t,
    __setitem__ st_1010 (-1) (Complex 0 1) = Ok s'
    /\ valid s'
    /\ basis_size s' = 4%Z
    /\ qubit_count s' = 2%Z
    /\ __getitem__ s' (-1) = Ok (Complex 0 1)
    /\ forall j : Z,
         (- 4 <= j < 4)%Z ->
         position 4 j <> position 4 (-1) ->
         __getitem__ s' j = __getitem__ st_1010 j.
Proof.
  apply (setitem_then_getitem st_1010 (-1) (Complex 0 1) valid_st_1010).
  simpl. lia.
Defined.

(** X2: an index outside [-basis_size .. basis_size - 1] is an
    [IndexError], for reading and for writing alike. *)
Theorem item_out_of_range (s : State.t) (k : Z) :
  valid s -> (k < - basis_size s \/ basis_size s <= k)%Z ->
  __getitem__ s k = Raise IndexError
  /\ forall v : complex128, __setitem__ s k v = Raise IndexError.
Proof.
  intros (Hb & _) Hk. rewrite Hb in Hk.
  unfold __getitem__, __setitem__, getitem, setitem.
  rewrite (index_out_of_range _ k Hk). split; reflexivity.
Qed.

Lemma item_out_of_range_witness :
  __getitem__ st_1010 4 = Raise IndexError
  /\ forall v : complex128, __setitem__ st_1010 4 v = Raise IndexError.
Proof.
  apply (item_out_of_range st_1010 4 valid_st_1010). simpl. lia.
Defined.

(** X3: a negative index [-k], for [k] from 1 to [basis_size], names the
    label [basis_size - k]: reading and writing through the one or the
    other is the same. *)
Theorem negative_index_alias (s : State.t) (k : Z) :
  valid s -> (1 <= k <= basis_size s)%Z ->
  __getitem__ s (- k) = __getitem__ s (basis_size s - k)
  /\ forall v : complex128,
       __setitem__ s (- k) v = __setitem__ s (basis_size s - k) v.
Proof.
  intros (Hb & _) Hk. rewrite Hb in *.
  set (n := List.length (amplitudes s)) in *.
  assert (H1 : index n (- k) = Ok (position n (- k)))
    by (apply index_in_range; lia).
  assert (H2 : index n (Z.of_nat n - k) = Ok (position n (Z.of_nat n - k)))
    by (apply index_in_range; lia).
  assert (E : position n (- k) = position n (Z.of_nat n - k)).
  { unfold position. destruct (- k <? 0)%Z eqn:E1; [|lia].
    destruct (Z.of_nat n - k <? 0)%Z eqn:E2; lia. }
  unfold __getitem__, __setitem__, getitem, setitem. fold n.
  rewrite H1, H2, E. split; reflexivity.
Qed.

Lemma negative_index_alias_witness :
  __getitem__ st_1010 (- 2) = __getitem__ st_1010 (4 - 2)
  /\ forall v : complex128,
       __setitem__ st_1010 (- 2) v = __setitem__ st_1010 (4 - 2) v.
Proof.
  apply (negative_index_alias st_1010 2 valid_st_1010). simpl. lia.
Defined.

(** ** Negation, sum and difference *)



Lemma csub_cadd_cneg (a b : complex128) : csub a b = cadd a (cneg b).
Proof.
  unfold csub, cadd, cneg. simpl.
  rewrite !FloatAlgebra.sub_add_opp. reflexivity.
Qed.

Lemma nth_map_in (f : complex128 -> complex128) (l : list complex128)
  (i : nat) :
  (i < List.length l)%nat -> nth i (map f l) czero = f (nth i l czero).
Proof.
  intros Hi. rewrite (nth_indep _ czero (f czero)).
  - apply map_nth.
  - rewrite length_map. assumption.
Qed.







Lemma map2_sub_neg (a b : list complex128) :
  map2 csub a b = map2 cadd a (map cneg b).
Proof.
  revert b. induction a as [|x a IH]; intros [|y b]; simpl; try reflexivity.
  rewrite csub_cadd_cneg, IH. reflexivity.
Qed.

Lemma broadcast_sub_neg (a b : list complex128) :
  broadcast csub a b = broadcast cadd a (map cneg b).
Proof.
  unfold broadcast. rewrite length_map.
  destruct (List.length a =? List.length b)%nat.
  - rewrite map2_sub_neg. reflexivity.
  - assert (L : forall x l, map (csub x) l = map (cadd x) (map cneg l)).
    { intros x l. rewrite map_map. apply map_ext. intros c.
      apply csub_cadd_cneg. }
    assert (R : forall y l,
              map (fun x => csub x y) l = map (fun x => cadd x (cneg y)) l).
    { intros y l. apply map_ext. intros c. apply csub_cadd_cneg. }
    destruct a as [|x [|x' a]].
    + destruct b as [|y [|y' b]]; reflexivity.
    + rewrite L. reflexivity.
    + destruct b as [|y [|y' b]]; try reflexivity.
      change (map cneg [y]) with [cneg y]. cbv iota. rewrite R. reflexivity.
Qed.

(** X6: subtracting a State is adding its opposite: [s - t] and
    [s + (-t)] are the same result, a State or the same failure, whatever
    the sizes of [s] and [t]. *)
Theorem sub_is_add_neg (s t : State.t) :
  valid t ->
  __sub__ s (PState t) = (r <- __neg__ t ;; __add__ s (PState r)).
Proof.
  intros Ht. unfold __neg__.
  rewrite (init_valid t (map cneg (amplitudes t))) by auto using length_map.
  unfold __sub__, __add__. simpl. rewrite broadcast_sub_neg. reflexivity.
Qed.

Lemma sub_is_add_neg_witness :
  __sub__ st_1010 (PState st_1100)
  = (r <- __neg__ st_1100 ;; __add__ st_1010 (PState r)).
Proof. exact (sub_is_add_neg st_1010 st_1100 valid_st_1100). Defined.

(** ** Equality of two States *)

Lemma ceq_sym (a b : complex128) : ceq a b = ceq b a.
Proof.
  unfold ceq. rewrite (FloatAlgebra.eqb_sym (real a)).
  rewrite (FloatAlgebra.eqb_sym (imag a)). reflexivity.
Qed.

Lemma zip_equal_sym (a b : list complex128) : zip_equal a b = zip_equal b a.
Proof.
  revert b. induction a as [|x a IH]; intros [|y b]; simpl; try reflexivity.
  unfold cne. rewrite (ceq_sym x y), IH. reflexivity.
Qed.

Lemma zip_equal_pointwise (a b : list complex128) :
  List.length a = List.length b ->
  zip_equal a b = true
  <-> forall i : nat, (i < List.length a)%nat ->
        ceq (nth i a czero) (nth i b czero) = true.
Proof.
  revert b. induction a as [|x a IH]; intros [|y b] Hl; simpl in *;
    try discriminate.
  - split; [intros _ i Hi; lia | reflexivity].
  - unfold cne. destruct (ceq x y) eqn:E; simpl.
    + rewrite (IH b) by lia. split.
      * intros H [|i] Hi; [assumption | apply H; lia].
      * intros H i Hi. apply (H (S i)). lia.
    + split; [discriminate|]. intros H.
      specialize (H 0%nat ltac:(lia)). simpl in H. congruence.
Qed.

Lemma zip_equal_self (l : list complex128) :
  zip_equal l l = true
  <-> Forall (fun a => number (real a) /\ number (imag a)) l.
Proof.
  induction l as [|a l IH]; simpl.
  - split; [constructor | reflexivity].
  - unfold cne, ceq.
    destruct (real a =? real a)%float eqn:Er,
             (imag a =? imag a)%float eqn:Ei; simpl.
    + rewrite IH. split.
      * intros H. constructor; [|assumption].
        split; apply FloatAlgebra.eqb_refl_number; assumption.
      * intros H. inversion H. assumption.
    + split; [discriminate|]. intros H. inversion H as [|? ? [_ Hn] _].
      apply FloatAlgebra.eqb_refl_number in Hn. congruence.
    + split; [discriminate|]. intros H. inversion H as [|? ? [Hn _] _].
      apply FloatAlgebra.eqb_refl_number in Hn. congruence.
    + split; [discriminate|]. intros H. inversion H as [|? ? [Hn _] _].
      apply FloatAlgebra.eqb_refl_number in Hn. congruence.
Qed.

(** X7: comparing two States gives the same answer in either order. *)
Theorem eq_states_symmetric (s t : State.t) :
  __eq__ s (PState t) = __eq__ t (PState s).
Proof.
  unfold __eq__. simpl. rewrite (Z.eqb_sym (qubit_count s)).
  destruct (negb (qubit_count t =? qubit_count s)%Z); [reflexivity|].
  simpl. rewrite zip_equal_sym. reflexivity.
Qed.

(** X8: two States compare equal exactly when their qubit counts are the
    same and their amplitudes compare equal at every label; the comparison
    of two States never fails. *)
Theorem eq_states_iff (s t : State.t) :
  valid s -> valid t ->
  (__eq__ s (PState t) = Ok true
   <-> qubit_count s = qubit_count t
       /\ forall i : nat, (i < List.length (amplitudes s))%nat ->
            ceq (nth i (amplitudes s) czero) (nth i (amplitudes t) czero)
            = true)
  /\ exists b : bool, __eq__ s (PState t) = Ok b.
Proof.
  intros (Hbs & _ & Hps) (Hbt & _ & Hpt). unfold __eq__. simpl.
  destruct (Z.eqb_spec (qubit_count s) (qubit_count t)) as [E|E]; simpl.
  - assert (Hl : List.length (amplitudes s) = List.length (amplitudes t))
      by (rewrite E in Hps; lia).
    split; [|eauto]. rewrite <- (zip_equal_pointwise _ _ Hl). split.
    + intros H. split; congruence.
    + intros [_ H]. congruence.
  - split; [|eauto]. split; [discriminate|]. intros [H _]. contradiction.
Qed.

Lemma eq_states_iff_witness :
  (__eq__ st_1010 (PState st_1100) = Ok true
   <-> qubit_count st_1010 = qubit_count st_1100
       /\ forall i : nat, (i < List.length (amplitudes st_1010))%nat ->
            ceq (nth i (amplitudes st_1010) czero)
                (nth i (amplitudes st_1100) czero) = true)
  /\ exists b : bool, __eq__ st_1010 (PState st_1100) = Ok b.
Proof.
  exact (eq_states_iff st_1010 st_1100 valid_st_1010 valid_st_1100).
Defined.

(** X9: a State compares equal to itself exactly when no part of any of
    its amplitudes is a NaN. *)
Theorem eq_self_iff_no_nan (s : State.t) :
  __eq__ s (PState s) = Ok true
  <-> Forall (fun a => number (real a) /\ number (imag a)) (amplitudes s).
Proof.
  unfold __eq__. simpl. rewrite Z.eqb_refl. simpl.
  rewrite <- zip_equal_self. split; congruence.
Qed.

(** ** Basis states *)

Section BasisState.

Variables n b : Z.
Hypothesis n_nonneg : (0 <= n)%Z.
Hypothesis b_in_range : (0 <= b < 2 ^ n)%Z.

Let k : nat := Z.to_nat b.
Let e : State.t := State.Build (one_hot (2 ^ n) k) (2 ^ n) n.

Lemma basis_state_built : from_basis_state n b = Ok e.
Proof. apply from_basis_state_in_range; assumption. Qed.

Lemma basis_state_valid : valid e.
Proof.
  apply (init_ok_inv (one_hot (2 ^ n) k)). apply init_one_hot. assumption.
Qed.

Lemma basis_state_length : List.length (amplitudes e) = Z.to_nat (2 ^ n).
Proof. apply one_hot_length. Qed.

Lemma basis_state_label : (k < Z.to_nat (2 ^ n))%nat.
Proof. unfold k. lia. Qed.

Lemma fold_zeros (m : nat) (acc : complex128) :
  acc = czero \/ acc = of_float 1 ->
  fold_left cadd (map2 cmul (map conj (repeat czero m)) (repeat czero m)) acc
  = acc.
Proof.
  revert acc. induction m as [|m IH]; intros acc Hacc; [reflexivity|].
  simpl. rewrite IH; destruct Hacc as [-> | ->]; auto.
Qed.

Lemma fold_one_hot (m j : nat) :
  (j < m)%nat ->
  fold_left cadd
    (map2 cmul (map conj (update (repeat czero m) j (of_float 1)))
       (update (repeat czero m) j (of_float 1))) czero
  = of_float 1.
Proof.
  revert j. induction m as [|m IH]; intros j Hj; [lia|].
  destruct j as [|j]; simpl.
  - change (cadd czero (cmul (conj (of_float 1)) (of_float 1)))
      with (of_float 1).
    apply fold_zeros. auto.
  - change (cadd czero (cmul (conj czero) czero)) with czero.
    apply IH. lia.
Qed.

Lemma basis_state_inner : inner_self e = 1%float.
Proof.
  unfold inner_self, e, one_hot, zeros. simpl.
  rewrite fold_one_hot by apply basis_state_label. reflexivity.
Qed.

Lemma basis_state_prob (j : nat) :
  (j < Z.to_nat (2 ^ n))%nat ->
  prob e j = if (j =? k)%nat then 1%float else 0%float.
Proof.
  intros Hj. unfold prob. rewrite basis_state_inner.
  change (amplitudes e) with (one_hot (2 ^ n) k).
  rewrite nth_one_hot by apply basis_state_label.
  destruct (j =? k)%nat; reflexivity.
Qed.

Lemma basis_state_running_sum (j : nat) :
  (j < Z.to_nat (2 ^ n))%nat ->
  running_sum e j = if (j <? k)%nat then 0%float else 1%float.
Proof.
  induction j as [|j IH]; intros Hj; simpl.
  - rewrite basis_state_prob by assumption.
    destruct k as [|k']; reflexivity.
  - rewrite IH by lia. rewrite basis_state_prob by assumption.
    destruct (Nat.ltb_spec j k), (Nat.ltb_spec (S j) k),
             (Nat.eqb_spec (S j) k); try lia; reflexivity.
Qed.

(** The probability of each label of a basis state, and its norm. *)
Lemma basis_state_prob_of_bs (m : Z) :
  (0 <= m < 2 ^ n)%Z ->
  prob_of_bs e m true = Ok (if (m =? b)%Z then 1%float else 0%float).
Proof.
  intros Hm.
  assert (Hl : (0 <= m < Z.of_nat (List.length (amplitudes e)))%Z)
    by (rewrite basis_state_length; lia).
  rewrite (proj1 (prob_of_bs_in_range e m Hl)).
  rewrite basis_state_prob by lia. unfold k.
  destruct (Nat.eqb_spec (Z.to_nat m) (Z.to_nat b)), (Z.eqb_spec m b);
    try lia; reflexivity.
Qed.

Lemma basis_state_norm : norm e = Ok 1%float.
Proof. rewrite norm_self, basis_state_inner. reflexivity. Qed.

Lemma basis_state_is_normalized (rtol atol : float) :
  (0 <=? atol + rtol * 1)%float = true ->
  is_normalized e rtol atol = Ok true.
Proof.
  intros H. unfold is_normalized. rewrite basis_state_norm. simpl.
  unfold isclose.
  change (isfinite 1 && isfinite 1) with true. cbv iota.
  change (abs (1 - 1))%float with 0%float.
  change (abs 1)%float with 1%float. rewrite H. reflexivity.
Qed.

Lemma basis_state_measure (u : float) :
  (0 <? u)%float = true -> (u <=? 1)%float = true ->
  random_measure_bs e u = Some (Ok b).
Proof.
  intros H0 H1. replace b with (Z.of_nat k) by (unfold k; lia).
  pose proof basis_state_label as Hk.
  apply random_measure_bs_first_crossing.
  - rewrite basis_state_length. assumption.
  - rewrite basis_state_running_sum by assumption.
    rewrite Nat.ltb_irrefl. assumption.
  - intros j Hj. rewrite basis_state_running_sum by lia.
    destruct (Nat.ltb_spec j k); [|lia].
    destruct (u <=? 0)%float eqn:E; [|reflexivity].
    apply FloatFacts.leb_not_ltb in E. congruence.
Qed.

Lemma basis_state_measure_zero_draw :
  random_measure_bs e 0%float = Some (Ok 0%Z).
Proof.
  unfold random_measure_bs.
  rewrite (basis_state_prob_of_bs 0) by lia.
  destruct (0 =? b)%Z; destruct (List.length (amplitudes e)); reflexivity.
Qed.

End BasisState.

(** X10: the State that the factory builds for a label in range has norm
    exactly 1 and is normalized for every pair of tolerances whose bound
    [atol + rtol * 1] is not negative, the defaults among them; the
    normalized probability of its own label is 1 and that of every other
    label is 0. *)
Theorem from_basis_state_normalized (n b : Z) (rtol atol : float) :
  (0 <= n)%Z -> (0 <= b < 2 ^ n)%Z ->
  (0 <=? atol + rtol * 1)%float = true ->
  exists s : State.t,
    from_basis_state n b = Ok s
    /\ norm s = Ok 1%float
    /\ is_normalized s rtol atol = Ok true
    /\ forall m : Z, (0 <= m < 2 ^ n)%Z ->
         prob_of_bs s m true = Ok (if (m =? b)%Z then 1%float else 0%float).
Proof.
  intros Hn Hb Htol. eexists. split; [apply basis_state_built; assumption|].
  split; [apply basis_state_norm; assumption|].
  split; [apply basis_state_is_normalized; assumption|].
  intros m Hm. apply basis_state_prob_of_bs; assumption.
Qed.

Lemma from_basis_state_normalized_witness :
  exists s : State.t,
    from_basis_state 4 0 = Ok s
    /\ norm s = Ok 1%float
    /\ is_normalized s default_rtol default_atol = Ok true
    /\ forall m : Z, (0 <= m < 2 ^ 4)%Z ->
         prob_of_bs s m true = Ok (if (m =? 0)%Z then 1%float else 0%float).
Proof.
  apply (from_basis_state_normalized 4 0); [lia | lia | reflexivity].
Defined.

(** X11: measuring the State that the factory builds for the label [b]
    returns [b] for every draw above 0 (and up to 1); for the draw 0, the
    least that can be drawn, it returns the label 0, whatever [b] is. *)
Theorem from_basis_state_measured (n b : Z) :
  (0 <= n)%Z -> (0 <= b < 2 ^ n)%Z ->
  exists s : State.t,
    from_basis_state n b = Ok s
    /\ (forall u : float,
          (0 <? u)%float = true -> (u <=? 1)%float = true ->
          random_measure_bs s u = Some (Ok b))
    /\ random_measure_bs s 0%float = Some (Ok 0%Z).
Proof.
  intros Hn Hb. eexists. split; [apply basis_state_built; assumption|].
  split.
  - intros u H0 H1. apply basis_state_measure; assumption.
  - apply basis_state_measure_zero_draw; assumption.
Qed.

Lemma from_basis_state_measured_witness :
  exists s : State.t,
    from_basis_state 2 3 = Ok s
    /\ (forall u : float,
          (0 <? u)%float = true -> (u <=? 1)%float = true ->
          random_measure_bs s u = Some (Ok 3%Z))
    /\ random_measure_bs s 0%float = Some (Ok 0%Z).
Proof. apply (from_basis_state_measured 2 3); lia. Defined.

(** ** Measuring one qubit *)

Lemma land_bit (q bs : Z) :
  (0 <= q)%Z ->
  (Z.land (Z.shiftl 1 q) bs =? 0)%Z = negb (Z.testbit bs q).
Proof.
  intros Hq. rewrite Z.shiftl_1_l.
  destruct (Z.testbit bs q) eqn:E; simpl.
  - apply Z.eqb_neq. intros H.
    assert (B : Z.testbit (Z.land (2 ^ q) bs) q = true).
    { rewrite Z.land_spec, Z.pow2_bits_true, E by assumption. reflexivity. }
    rewrite H, Z.bits_0 in B. discriminate.
  - apply Z.eqb_eq. apply Z.bits_inj'. intros i Hi.
    rewrite Z.land_spec, Z.bits_0, Z.pow2_bits_eqb by assumption.
    destruct (Z.eqb_spec q i) as [->|]; [rewrite E|]; reflexivity.
Qed.

Lemma testbit_small (q bs : Z) :
  (0 <= bs < 2 ^ q)%Z -> Z.testbit bs q = false.
Proof.
  intros [H0 H1]. destruct (Z.eq_dec bs 0) as [->|Hne];
    [apply Z.bits_0|].
  apply Z.bits_above_log2; [assumption|].
  apply Z.log2_lt_pow2; lia.
Qed.

Lemma range_labels (m : Z) (bs : Z) :
  In bs (range m) -> (0 <= bs < m)%Z.
Proof.
  unfold range. intros H. apply in_map_iff in H as (j & <- & Hj).
  apply in_seq in Hj. lia.
Qed.

(** No label has the bit set: nothing is added. *)
Lemma sum_prob_set_none (s : State.t) (q : Z) (labels : list Z)
  (acc : float) :
  (0 <= q)%Z ->
  (forall bs, In bs labels -> Z.testbit bs q = false) ->
  sum_prob_set s q labels acc = Ok acc.
Proof.
  intros Hq. revert acc. induction labels as [|bs rest IH]; intros acc H;
    [reflexivity|].
  cbn [sum_prob_set]. rewrite lshift_nonneg by assumption. simpl.
  rewrite land_bit by assumption. rewrite (H bs) by (left; reflexivity).
  simpl. apply IH. intros x Hx. apply H. right. assumption.
Qed.

(** X12: a qubit index at or beyond [qubit_count] is not refused: no
    label has that bit, the sum of probabilities is 0, and the method
    returns 0 for every draw that is not below 0.  A negative qubit index
    is a [ValueError]. *)
Theorem random_measure_qubit_out_of_range (s : State.t) (q : Z) :
  valid s ->
  (qubit_count s <= q ->
   forall u : float, (0 <=? u)%float = true ->
     random_measure_qubit s q u = Ok 0)%Z
  /\ ((q < 0)%Z ->
      forall u : float, random_measure_qubit s q u = Raise ValueError).
Proof.
  intros (Hb & Hq & Hp). split.
  - intros Hle u Hu. unfold random_measure_qubit.
    rewrite sum_prob_set_none.
    + simpl. rewrite (FloatFacts.leb_not_ltb _ _ Hu). reflexivity.
    + lia.
    + intros bs Hin. apply range_labels in Hin. apply testbit_small.
      rewrite Hp in Hin.
      assert (2 ^ qubit_count s <= 2 ^ q)%Z
        by (apply Z.pow_le_mono_r; lia).
      lia.
  - intros Hneg u. unfold random_measure_qubit, range.
    assert (Hpos : (0 < basis_size s)%Z)
      by (rewrite Hp; apply Z.pow_pos_nonneg; lia).
    destruct (Z.to_nat (basis_size s)) as [|m] eqn:E; [lia|].
    simpl. unfold lshift. destruct (q <? 0)%Z eqn:E'; [reflexivity | lia].
Qed.

Lemma random_measure_qubit_out_of_range_witness :
  random_measure_qubit st_1010 2 0.5%float = Ok 0%Z
  /\ random_measure_qubit st_1010 (-1) 0.5%float = Raise ValueError.
Proof.
  destruct (random_measure_qubit_out_of_range st_1010 2 valid_st_1010)
    as [H _].
  destruct (random_measure_qubit_out_of_range st_1010 (-1) valid_st_1010)
    as [_ H'].
  split.
  - apply H; [simpl; lia | reflexivity].
  - apply H'. lia.
Defined.

Section BasisQubit.

Variables n b q : Z.
Hypothesis n_nonneg : (0 <= n)%Z.
Hypothesis b_in_range : (0 <= b < 2 ^ n)%Z.
Hypothesis q_nonneg : (0 <= q)%Z.

Let k : nat := Z.to_nat b.
Let e : State.t := State.Build (one_hot (2 ^ n) k) (2 ^ n) n.

(** The sum over the labels from [start] on, entered with the sum over
    the labels before [start]. *)
Lemma sum_prob_set_basis (len start : nat) (acc : float) :
  (start + len <= Z.to_nat (2 ^ n))%nat ->
  acc = (if (k <? start)%nat && Z.testbit b q then 1 else 0)%float ->
  sum_prob_set e q (map Z.of_nat (seq start len)) acc
  = Ok (if (k <? start + len)%nat && Z.testbit b q then 1 else 0)%float.
Proof.
  revert start acc. induction len as [|len IH]; intros start acc Hle Hacc.
  - rewrite Nat.add_0_r. simpl. rewrite Hacc. reflexivity.
  - cbn [seq map sum_prob_set]. rewrite lshift_nonneg by assumption.
    cbn [bind]. rewrite land_bit by assumption. rewrite negb_involutive.
    replace (start + S len)%nat with (S start + len)%nat by lia.
    destruct (Z.testbit (Z.of_nat start) q) eqn:Ebit.
    + assert (P := basis_state_prob_of_bs n b n_nonneg b_in_range
                     (Z.of_nat start) ltac:(lia)).
      fold k in P. fold e in P. rewrite P. cbn [bind].
      apply IH; [lia|]. rewrite Hacc.
      destruct (Z.eqb_spec (Z.of_nat start) b) as [E|E].
      * rewrite <- E, Ebit.
        assert (Hk : k = start) by (unfold k; lia).
        rewrite Hk, Nat.ltb_irrefl.
        replace (start <? S start)%nat with true
          by (symmetry; apply Nat.ltb_lt; lia).
        reflexivity.
      * assert (Hk : k <> start) by (unfold k; lia).
        replace (k <? S start)%nat with (k <? start)%nat
          by (destruct (Nat.ltb_spec k start), (Nat.ltb_spec k (S start));
              try reflexivity; lia).
        destruct ((k <? start)%nat && Z.testbit b q); reflexivity.
    + apply IH; [lia|]. rewrite Hacc.
      destruct (Nat.eq_dec k start) as [Hk|Hk].
      * assert (E : Z.of_nat start = b) by (unfold k in Hk; lia).
        rewrite <- E, Ebit, !andb_false_r. reflexivity.
      * replace (k <? S start)%nat with (k <? start)%nat
          by (destruct (Nat.ltb_spec k start), (Nat.ltb_spec k (S start));
              try reflexivity; lia).
        reflexivity.
Qed.

Lemma basis_state_measure_qubit (u : float) :
  (0 <=? u)%float = true -> (u <? 1)%float = true ->
  random_measure_qubit e q u = Ok (if Z.testbit b q then 1 else 0)%Z.
Proof.
  intros H0 H1. unfold random_measure_qubit, range.
  change (basis_size e) with (2 ^ n)%Z.
  rewrite (sum_prob_set_basis (Z.to_nat (2 ^ n)) 0 0%float);
    [|lia|reflexivity].
  cbn [bind].
  replace (k <? 0 + Z.to_nat (2 ^ n))%nat with true
    by (symmetry; apply Nat.ltb_lt; unfold k; lia).
  destruct (Z.testbit b q); simpl.
  - rewrite H1. reflexivity.
  - rewrite (FloatFacts.leb_not_ltb _ _ H0). reflexivity.
Qed.

End BasisQubit.

(** X13: measuring the qubit [q] of the State that the factory builds for
    the label [b] returns the bit [q] of [b], for every draw in [0, 1). *)
Theorem from_basis_state_qubit (n b q : Z) (u : float) :
  (0 <= n)%Z -> (0 <= b < 2 ^ n)%Z -> (0 <= q)%Z ->
  (0 <=? u)%float = true -> (u <? 1)%float = true ->
  exists s : State.t,
    from_basis_state n b = Ok s
    /\ random_measure_qubit s q u = Ok (if Z.testbit b q then 1 else 0)%Z.
Proof.
  intros Hn Hb Hq H0 H1. eexists.
  split; [apply basis_state_built; assumption|].
  apply basis_state_measure_qubit; assumption.
Qed.

Lemma from_basis_state_qubit_witness :
  exists s : State.t,
    from_basis_state 3 5 = Ok s
    /\ random_measure_qubit s 2 0.5%float = Ok 1%Z.
Proof.
  apply (from_basis_state_qubit 3 5 2 0.5%float); try lia; reflexivity.
Defined.

(** ** Signs of binary64 results *)

Module FloatSign.

Open Scope float_scope.

Lemma binary_round_aux_sign (sx : bool) (mx ex : Z) (lx : location) :
  sf_sign sx (binary_round_aux prec emax sx mx ex lx).
Proof.
  unfold binary_round_aux.
  destruct (shr_fexp prec emax mx ex lx) as [mrs' e'].
  destruct (shr_fexp prec emax _ e' loc_Exact) as [mrs'' e''].
  destruct (shr_m mrs''); [reflexivity | | exact I].
  destruct (Z.leb e'' (Z.sub emax prec)); reflexivity.
Qed.

Lemma binary_round_aux_opp (sx : bool) (mx ex : Z) (lx : location) :
  binary_round_aux prec emax (negb sx) mx ex lx
  = SFopp (binary_round_aux prec emax sx mx ex lx).
Proof.
  unfold binary_round_aux.
  destruct (shr_fexp prec emax mx ex lx) as [mrs' e'].
  destruct (shr_fexp prec emax _ e' loc_Exact) as [mrs'' e''].
  destruct (shr_m mrs''); [reflexivity | | reflexivity].
  destruct (Z.leb e'' (Z.sub emax prec)); reflexivity.
Qed.

Lemma SFmul_comm (x y : spec_float) :
  SFmul prec emax x y = SFmul prec emax y x.
Proof.
  destruct x as [sx|sx| |sx mx ex], y as [sy|sy| |sy my ey]; simpl;
    try reflexivity; try (rewrite (xorb_comm sx sy); reflexivity).
  rewrite (xorb_comm sx sy), (Pos.mul_comm mx my), (Z.add_comm ex ey).
  reflexivity.
Qed.

Lemma SFmul_opp_l (x y : spec_float) :
  SFmul prec emax (SFopp x) y = SFopp (SFmul prec emax x y).
Proof.
  destruct x as [sx|sx| |sx mx ex], y as [sy|sy| |sy my ey]; simpl;
    try reflexivity; try (rewrite negb_xorb_l; reflexivity).
  rewrite <- negb_xorb_l. apply binary_round_aux_opp.
Qed.

Lemma SFadd_opp_self (x : spec_float) :
  SFadd prec emax x (SFopp x) = S754_zero false
  \/ SFadd prec emax x (SFopp x) = S754_nan.
Proof.
  destruct x as [sx|sx| |sx mx ex]; simpl.
  - left. destruct sx; reflexivity.
  - right. destruct sx; reflexivity.
  - right. reflexivity.
  - left. set (p := fst (shl_align mx ex (Z.min ex ex))).
    destruct sx; simpl; rewrite ?Z.pos_sub_diag; reflexivity.
Qed.

Lemma mul_comm (x y : float) : x * y = y * x.
Proof. apply Prim2SF_inj. rewrite !mul_spec. apply SFmul_comm. Qed.

Lemma mul_opp_l (x y : float) : - x * y = - (x * y).
Proof.
  apply Prim2SF_inj. rewrite opp_spec, !mul_spec, opp_spec.
  apply SFmul_opp_l.
Qed.

(** A float minus itself is [+0], or a NaN when the float is not
    finite. *)
Lemma add_opp_self (x : float) : x + - x = 0 \/ x + - x = nan.
Proof.
  destruct (SFadd_opp_self (Prim2SF x)) as [H|H]; [left|right];
    apply Prim2SF_inj; rewrite add_spec, opp_spec; exact H.
Qed.

Lemma add_nan_l (y : float) : nan + y = nan.
Proof. apply Prim2SF_inj. rewrite add_spec. reflexivity. Qed.

Lemma mul_self_not_negative (x : float) : not_negative (x * x).
Proof.
  unfold not_negative. rewrite mul_spec.
  destruct (Prim2SF x) as [s|s| |s m e]; simpl; try apply xorb_nilpotent;
    try exact I.
  rewrite xorb_nilpotent. apply binary_round_aux_sign.
Qed.

Lemma add_not_negative (x y : float) :
  not_negative x -> not_negative y -> not_negative (x + y).
Proof.
  unfold not_negative. rewrite add_spec.
  destruct (Prim2SF x) as [sx|sx| |sx mx ex],
           (Prim2SF y) as [sy|sy| |sy my ey]; simpl;
    intros Hx Hy; subst; try reflexivity; try exact I.
  unfold SF64add, SFadd, cond_Zopp.
  set (p := fst (shl_align mx ex (Z.min ex ey))).
  set (q := fst (shl_align my ey (Z.min ex ey))).
  change (Z.pos p + Z.pos q)%Z with (Z.pos (p + q)).
  unfold binary_normalize, binary_round.
  destruct (shl_align (p + q) (Z.min ex ey) _) as [mz ez].
  apply binary_round_aux_sign.
Qed.

Lemma div_not_negative (x y : float) :
  not_negative x -> not_negative y -> not_negative (x / y).
Proof.
  unfold not_negative. rewrite div_spec.
  destruct (Prim2SF x) as [sx|sx| |sx mx ex],
           (Prim2SF y) as [sy|sy| |sy my ey]; simpl;
    intros Hx Hy; subst; try reflexivity; try exact I.
  unfold SF64div, SFdiv.
  destruct (SFdiv_core_binary prec emax (Z.pos mx) ex (Z.pos my) ey)
    as [[mz ez] lz].
  apply (binary_round_aux_sign false).
Qed.

Lemma sqrt_not_negative (x : float) :
  not_negative x -> not_negative (sqrt x).
Proof.
  unfold not_negative. rewrite sqrt_spec.
  destruct (Prim2SF x) as [sx|sx| |sx mx ex]; simpl; intros Hx; subst;
    try reflexivity; try exact I.
  unfold SF64sqrt, SFsqrt.
  destruct (SFsqrt_core_binary prec emax (Z.pos mx) ex) as [[mz ez] lz].
  apply (binary_round_aux_sign false).
Qed.

Lemma not_negative_cases (x : float) :
  not_negative x -> x = nan \/ (0 <=? x) = true.
Proof.
  unfold not_negative. intros H.
  destruct (Prim2SF x) as [s|s| |s m e] eqn:E; simpl in H; subst;
    try (right; rewrite leb_spec, E; reflexivity).
  left. apply Prim2SF_inj. rewrite E. reflexivity.
Qed.

Lemma not_negative_ltb_zero (x : float) :
  not_negative x -> (x <? 0) = false.
Proof.
  intros H. destruct (not_negative_cases x H) as [-> | H0].
  - reflexivity.
  - apply FloatFacts.leb_not_ltb. assumption.
Qed.

End FloatSign.

(** ** The inner product of a State with itself *)

Import FloatSign.

Lemma conj_times_self (a : complex128) :
  cmul (conj a) a
  = Complex (real a * real a + imag a * imag a)%float
            (real a * imag a + - (real a * imag a))%float.
Proof.
  unfold cmul, conj. simpl. f_equal.
  - rewrite mul_opp_l, FloatAlgebra.sub_add_opp, FloatAlgebra.opp_involutive.
    reflexivity.
  - rewrite mul_opp_l, (mul_comm (imag a) (real a)). reflexivity.
Qed.

Lemma real_sum_step (acc a : complex128) :
  real_sum acc -> real_sum (cadd acc (cmul (conj a) a)).
Proof.
  intros [Hi Hr]. rewrite conj_times_self. unfold cadd. simpl. split.
  - destruct (add_opp_self (real a * imag a)) as [-> | ->];
      destruct Hi as [-> | ->]; auto.
  - apply add_not_negative; [assumption|].
    apply add_not_negative; apply mul_self_not_negative.
Qed.

Lemma real_sum_fold (l : list complex128) (acc : complex128) :
  real_sum acc ->
  real_sum (fold_left cadd (map2 cmul (map conj l) l) acc).
Proof.
  revert acc. induction l as [|a l IH]; intros acc H; [assumption|].
  simpl. apply IH. apply real_sum_step. assumption.
Qed.

Lemma inner_self_not_negative (s : State.t) : not_negative (inner_self s).
Proof.
  apply (real_sum_fold (amplitudes s) czero). split; [left|]; reflexivity.
Qed.

(** X14: the product of a State with itself is a number whose imaginary
    part is exactly [+0], or a NaN when a product of two parts of an
    amplitude is not finite; its real part is a NaN or is not below 0, and
    so is the norm. *)
Theorem mul_self_is_real (s : State.t) :
  exists c : complex128,
    __mul__ s (PState s) = Ok (PNum c)
    /\ (imag c = 0%float \/ imag c = nan)
    /\ (real c = nan \/ (0 <=? real c)%float = true)
    /\ exists r : float,
         norm s = Ok r /\ (r = nan \/ (0 <=? r)%float = true).
Proof.
  eexists. split; [apply mul_self|].
  destruct (real_sum_fold (amplitudes s) czero) as [Hi Hr];
    [split; [left|]; reflexivity|].
  split; [exact Hi|]. split; [apply not_negative_cases; exact Hr|].
  exists (sqrt (inner_self s)). split; [apply norm_self|].
  apply not_negative_cases, sqrt_not_negative, inner_self_not_negative.
Qed.

Lemma prob_not_negative (s : State.t) (j : nat) : not_negative (prob s j).
Proof.
  unfold prob, square. apply div_not_negative.
  - apply mul_self_not_negative.
  - apply inner_self_not_negative.
Qed.

(** X15: a probability that [prob_of_bs] returns, normalized or not, is a
    NaN or is not below 0; for an index of the State, from either end, it
    does return one. *)
Theorem prob_of_bs_not_negative (s : State.t) (m : Z) (normalize : bool) :
  valid s -> (- basis_size s <= m < basis_size s)%Z ->
  exists p : float,
    prob_of_bs s m normalize = Ok p
    /\ (p = nan \/ (0 <=? p)%float = true).
Proof.
  intros (Hb & _) Hm. rewrite Hb in Hm.
  destruct (index_in_range _ m Hm) as [Hi _].
  unfold prob_of_bs, __getitem__, getitem. rewrite Hi, mul_self.
  destruct normalize; simpl; eexists; (split; [reflexivity|]);
    apply not_negative_cases.
  - apply div_not_negative; [apply mul_self_not_negative|].
    apply inner_self_not_negative.
  - apply mul_self_not_negative.
Qed.

Lemma prob_of_bs_not_negative_witness :
  exists p : float,
    prob_of_bs st_1010 (-2) true = Ok p
    /\ (p = nan \/ (0 <=? p)%float = true).
Proof.
  apply (prob_of_bs_not_negative st_1010 (-2) true valid_st_1010).
  simpl. lia.
Defined.

(** X16: for the draw 0, the least that [np.random.random_sample()]
    returns, [random_measure_bs] returns the label 0 on every State, also
    when the probability of the label 0 is 0. *)
Theorem random_measure_bs_zero_draw (s : State.t) :
  valid s -> random_measure_bs s 0%float = Some (Ok 0%Z).
Proof.
  intros Hs. pose proof (valid_length_pos s Hs) as Hn.
  unfold random_measure_bs.
  assert (P : prob_of_bs s 0 true = Ok (prob s 0))
    by (apply (prob_of_bs_nat s 0); assumption).
  rewrite P.
  pose proof (not_negative_ltb_zero _ (prob_not_negative s 0)) as H.
  destruct (List.length (amplitudes s)); cbn [walk]; rewrite H; reflexivity.
Qed.

Lemma random_measure_bs_zero_draw_witness :
  random_measure_bs st_01 0%float = Some (Ok 0%Z).
Proof. exact (random_measure_bs_zero_draw st_01 valid_st_01). Defined.

(** ** The probability of a State *)

Lemma dot_mismatch (a b : list complex128) :
  List.length a <> List.length b -> dot a b = Raise ValueError.
Proof.
  intros H. unfold dot.
  destruct (Nat.eqb_spec (List.length a) (List.length b));
    [contradiction | reflexivity].
Qed.

(** X17: the inner product of two States and [prob_of_state] do not
    broadcast: for two States of different sizes, also when one of them
    has a single amplitude, both fail with numpy's [ValueError]; for two
    States of the same size both return a number. *)
Theorem prob_of_state_sizes (s t : State.t) (normalize : bool) :
  valid s -> valid t ->
  (basis_size s <> basis_size t ->
   __mul__ s (PState t) = Raise ValueError
   /\ prob_of_state s t normalize = Raise ValueError)
  /\ (basis_size s = basis_size t ->
      (exists c : complex128, __mul__ s (PState t) = Ok (PNum c))
      /\ exists p : float, prob_of_state s t normalize = Ok p).
Proof.
  intros (Hs & _) (Ht & _). split; intros H.
  - assert (E : dot (map conj (amplitudes s)) (amplitudes t)
                = Raise ValueError).
    { apply dot_mismatch. rewrite length_map. lia. }
    unfold prob_of_state, __mul__. rewrite E. split; reflexivity.
  - assert (Hl : List.length (amplitudes s) = List.length (amplitudes t))
      by lia.
    unfold prob_of_state. rewrite !mul_self. unfold __mul__, dot.
    rewrite length_map, Hl, Nat.eqb_refl. simpl.
    split; [eauto|]. destruct normalize; eauto.
Qed.

Lemma prob_of_state_sizes_witness :
  __mul__ st_1 (PState st_1010) = Raise ValueError
  /\ prob_of_state st_1 st_1010 true = Raise ValueError.
Proof.
  apply (prob_of_state_sizes st_1 st_1010 true valid_st_1 valid_st_1010).
  simpl. discriminate.
Defined.

(** The docstring's [s.prob_of_state(State.from_basis_state(2, 0))] for
    [s = State([1, 0, 1, 0])]. *)
Example prob_of_state_docstring :
  (e <- from_basis_state 2 0 ;; prob_of_state st_1010 e true) = Ok 0.5%float.
Proof. reflexivity. Qed.

(** ** The State of norm zero *)

Lemma zero_cases (a : complex128) :
  ceq a czero = true ->
  a = Complex 0 0 \/ a = Complex 0 (-0) \/ a = Complex (-0) 0
  \/ a = Complex (-0) (-0).
Proof.
  destruct a as [re im]. unfold ceq. simpl. intros H.
  apply andb_prop in H as [Hr Hi].
  destruct (FloatAlgebra.eqb_zero_cases _ Hr) as [-> | ->],
           (FloatAlgebra.eqb_zero_cases _ Hi) as [-> | ->]; auto.
Qed.

Lemma zero_times_self (a : complex128) :
  ceq a czero = true -> cmul (conj a) a = czero.
Proof.
  intros H.
  destruct (zero_cases a H) as [-> | [-> | [-> | ->]]]; reflexivity.
Qed.

Lemma zero_prob (a : complex128) :
  ceq a czero = true -> (square (cabs a) / 0)%float = nan.
Proof.
  intros H.
  destruct (zero_cases a H) as [-> | [-> | [-> | ->]]]; reflexivity.
Qed.

Lemma all_zero_fold (l : list complex128) :
  Forall (fun a => ceq a czero = true) l ->
  fold_left cadd (map2 cmul (map conj l) l) czero = czero.
Proof.
  induction 1 as [|a l Ha _ IH]; [reflexivity|].
  simpl. rewrite (zero_times_self a Ha). exact IH.
Qed.

Lemma all_zero_inner (s : State.t) : all_zero s -> inner_self s = 0%float.
Proof.
  intros H. unfold inner_self. rewrite (all_zero_fold _ H). reflexivity.
Qed.

Lemma all_zero_nth (s : State.t) (i : nat) :
  all_zero s -> ceq (nth i (amplitudes s) czero) czero = true.
Proof.
  intros H. unfold all_zero in H. rewrite Forall_forall in H.
  destruct (Nat.lt_ge_cases i (List.length (amplitudes s))) as [Hi|Hi].
  - apply H. apply nth_In. assumption.
  - rewrite nth_overflow by assumption. reflexivity.
Qed.

(** X18: on a State whose amplitudes are all zero nothing is refused: the
    norm is 0, the normalized probability of every label is a NaN (0
    divided by 0), and [random_measure_bs] returns the label 0 for every
    draw. *)
Theorem all_zero_measured (s : State.t) :
  valid s -> all_zero s ->
  norm s = Ok 0%float
  /\ (forall m : Z, (0 <= m < basis_size s)%Z ->
        prob_of_bs s m true = Ok nan)
  /\ forall u : float, random_measure_bs s u = Some (Ok 0%Z).
Proof.
  intros Hs Hz.
  assert (Hp : forall j : nat, prob s j = nan).
  { intros j. unfold prob. rewrite (all_zero_inner s Hz).
    apply zero_prob. apply all_zero_nth. assumption. }
  split; [|split].
  - rewrite norm_self, (all_zero_inner s Hz). reflexivity.
  - intros m Hm. destruct Hs as (Hb & _). rewrite Hb in Hm.
    rewrite (proj1 (prob_of_bs_in_range s m Hm)), Hp. reflexivity.
  - intros u. pose proof (valid_length_pos s Hs) as Hn.
    unfold random_measure_bs.
    assert (P : prob_of_bs s 0 true = Ok (prob s 0))
      by (apply (prob_of_bs_nat s 0); assumption).
    rewrite P, Hp.
    destruct (List.length (amplitudes s)); cbn [walk];
      rewrite FloatAlgebra.ltb_nan_l; reflexivity.
Qed.

Lemma all_zero_measured_witness :
  norm (State.Build (zeros 4) 4 2) = Ok 0%float
  /\ (forall m : Z, (0 <= m < 4)%Z ->
        prob_of_bs (State.Build (zeros 4) 4 2) m true = Ok nan)
  /\ forall u : float,
       random_measure_bs (State.Build (zeros 4) 4 2) u = Some (Ok 0%Z).
Proof.
  apply (all_zero_measured (State.Build (zeros 4) 4 2)).
  - apply (init_ok_inv (zeros 4)). reflexivity.
  - repeat constructor.
Defined.

(** X19: a State whose amplitudes are all zero is printed as ["0 |0>"],
    whatever its size. *)
Theorem str_all_zero (s : State.t) :
  all_zero s -> __str__ s = Ok "0 |0>"%string.
Proof.
  intros Hz. unfold __str__.
  rewrite norm_self, (all_zero_inner s Hz). reflexivity.
Qed.

Lemma str_all_zero_witness :
  __str__ (State.Build (zeros 4) 4 2) = Ok "0 |0>"%string.
Proof.
  apply (str_all_zero (State.Build (zeros 4) 4 2)). repeat constructor.
Defined.

(** ** The terms of the textual form *)

Lemma add_entry_later (parts : list string) (amp : complex128) (label : Z) :
  parts <> [] ->
  add_entry parts amp label = (parts ++ later_term (amp, label))%list.
Proof.
  intros H. unfold add_entry, later_term. simpl.
  destruct (rep_of amp) as [sgn number].
  destruct parts; [contradiction | reflexivity].
Qed.

Lemma add_entry_not_nil (parts : list string) (amp : complex128)
  (label : Z) :
  add_entry parts amp label <> [].
Proof.
  unfold add_entry. destruct (rep_of amp) as [sgn number].
  destruct (List.length parts =? 0)%nat; [destruct (String.eqb sgn "-")|];
    intros H; apply (f_equal (@List.length string)) in H;
    rewrite ?length_app in H; simpl in H; lia.
Qed.

Lemma entries_later (items : list (complex128 * Z)) (parts : list string) :
  parts <> [] ->
  entries items parts
  = (parts ++ flat_map later_term (nonzero_entries items))%list.
Proof.
  revert parts. induction items as [|[amp label] items IH]; intros parts H.
  - simpl. rewrite app_nil_r. reflexivity.
  - simpl. destruct (ceq amp czero); simpl.
    + apply IH. assumption.
    + rewrite IH by apply add_entry_not_nil.
      rewrite add_entry_later by assumption.
      rewrite <- app_assoc. reflexivity.
Qed.

Lemma entries_first (items : list (complex128 * Z)) :
  entries items []
  = match nonzero_entries items with
    | [] => []
    | (amp, label) :: rest =>
        (add_entry [] amp label ++ flat_map later_term rest)%list
    end.
Proof.
  induction items as [|[amp label] items IH]; [reflexivity|].
  simpl. destruct (ceq amp czero); simpl; [exact IH|].
  apply entries_later. apply add_entry_not_nil.
Qed.

(** X20: for a State whose norm is not zero, the textual form joins with
    single spaces the terms of exactly those labels whose amplitude does
    not compare equal to zero, in ascending order of the labels: the first
    term in the form the loop gives an entry added to an empty list, every
    later one as the three parts sign, number and ket. *)
Theorem str_terms (s : State.t) (r : float) :
  norm s = Ok r -> (r =? 0)%float = false ->
  __str__ s
  = Ok (String.concat " "
          match nonzero_entries
                  (combine (amplitudes s) (range (basis_size s))) with
          | [] => []
          | (amp, label) :: rest =>
              (add_entry [] amp label ++ flat_map later_term rest)%list
          end).
Proof.
  intros Hn Hr. unfold __str__. rewrite Hn. simpl. rewrite Hr.
  rewrite entries_first. reflexivity.
Qed.

Lemma str_terms_witness :
  __str__ st_1010
  = Ok (String.concat " "
          match nonzero_entries
                  (combine (amplitudes st_1010)
                     (range (basis_size st_1010))) with
          | [] => []
          | (amp, label) :: rest =>
              (add_entry [] amp label ++ flat_map later_term rest)%list
          end).
Proof.
  apply (str_terms st_1010 (sqrt 2)); reflexivity.
Defined.

(** ** What the measurements can return *)

Section Outcome.

Variable s : State.t.
Variable u : float.

Let n : nat := List.length (amplitudes s).

Lemma walk_outcome (fuel j : nat) (acc : float) (r : result Z) :
  (j < n)%nat ->
  walk fuel s u (Z.of_nat j) acc = Some r ->
  (exists label : Z, r = Ok label /\ (Z.of_nat j <= label < Z.of_nat n)%Z)
  \/ r = Raise IndexError.
Proof.
  revert j acc. induction fuel as [|fuel IH]; intros j acc Hj;
    cbn [walk]; destruct (acc <? u)%float.
  - discriminate.
  - intros H. injection H as <-. left. exists (Z.of_nat j). split; [|lia].
    reflexivity.
  - replace (Z.of_nat j + 1)%Z with (Z.of_nat (S j)) by lia.
    destruct (Nat.eq_dec (S j) n) as [E|E].
    + rewrite E. unfold n. rewrite prob_of_bs_at_length.
      intros H. injection H as <-. right. reflexivity.
    + rewrite (prob_of_bs_nat s (S j)) by (fold n; lia).
      intros H. apply IH in H; [|lia].
      destruct H as [(label & -> & Hl) | ->]; [left|right; reflexivity].
      exists label. split; [reflexivity | lia].
  - intros H. injection H as <-. left. exists (Z.of_nat j). split; [|lia].
    reflexivity.
Qed.

End Outcome.

(** X21: whatever the draw, [random_measure_bs] on a State either
    returns a label of the State, from 0 to [basis_size - 1], or raises an
    [IndexError]; it raises nothing else and returns nothing else. *)
Theorem random_measure_bs_outcome (s : State.t) (u : float) :
  valid s ->
  (exists label : Z,
     random_measure_bs s u = Some (Ok label)
     /\ (0 <= label < basis_size s)%Z)
  \/ random_measure_bs s u = Some (Raise IndexError).
Proof.
  intros Hs. pose proof (valid_length_pos s Hs) as Hn.
  destruct Hs as (Hb & _).
  destruct (random_measure_bs s u) as [r|] eqn:E;
    [|exfalso; exact (random_measure_bs_total s u E)].
  unfold random_measure_bs in E.
  assert (P : prob_of_bs s 0 true = Ok (prob s 0))
    by (apply (prob_of_bs_nat s 0); assumption).
  rewrite P in E.
  destruct (walk_outcome s u _ 0 _ r Hn E) as [(label & -> & Hl) | ->].
  - left. exists label. split; [reflexivity | lia].
  - right. reflexivity.
Qed.

Lemma random_measure_bs_outcome_witness :
  (exists label : Z,
     random_measure_bs st_1100 0.75%float = Some (Ok label)
     /\ (0 <= label < basis_size st_1100)%Z)
  \/ random_measure_bs st_1100 0.75%float = Some (Raise IndexError).
Proof.
  exact (random_measure_bs_outcome st_1100 0.75%float valid_st_1100).
Defined.

Lemma sum_prob_set_in_range (s : State.t) (q : Z) (labels : list Z)
  (acc : float) :
  (0 <= q)%Z ->
  (forall bs, In bs labels ->
     (0 <= bs < Z.of_nat (List.length (amplitudes s)))%Z) ->
  exists p : float, sum_prob_set s q labels acc = Ok p.
Proof.
  intros Hq. revert acc. induction labels as [|bs rest IH]; intros acc H.
  - simpl. eauto.
  - cbn [sum_prob_set]. rewrite lshift_nonneg by assumption. cbn [bind].
    assert (Hrest : forall x, In x rest ->
              (0 <= x < Z.of_nat (List.length (amplitudes s)))%Z)
      by (intros x Hx; apply H; right; assumption).
    destruct (negb (Z.land (Z.shiftl 1 q) bs =? 0)%Z).
    + rewrite (proj1 (prob_of_bs_in_range s bs
                        (H bs (or_introl eq_refl)))).
      cbn [bind]. apply IH. assumption.
    + apply IH. assumption.
Qed.

(** X22: for a qubit index that is not negative, [random_measure_qubit]
    on a State never fails and returns 0 or 1, whatever the draw. *)
Theorem random_measure_qubit_outcome (s : State.t) (q : Z) (u : float) :
  valid s -> (0 <= q)%Z ->
  random_measure_qubit s q u = Ok 0%Z \/ random_measure_qubit s q u = Ok 1%Z.
Proof.
  intros (Hb & _) Hq. unfold random_measure_qubit.
  destruct (sum_prob_set_in_range s q (range (basis_size s)) 0%float Hq)
    as [p Hp].
  - intros bs Hin. apply range_labels in Hin. lia.
  - rewrite Hp. cbn [bind]. destruct (u <? p)%float; auto.
Qed.

Lemma random_measure_qubit_outcome_witness :
  random_measure_qubit st_1010 1 0.25%float = Ok 0%Z
  \/ random_measure_qubit st_1010 1 0.25%float = Ok 1%Z.
Proof.
  apply (random_measure_qubit_outcome st_1010 1 0.25%float valid_st_1010).
  lia.
Defined.

(** ** Two basis states *)

Lemma fold_zeros_hot (m j : nat) (acc : complex128) :
  acc = czero \/ acc = of_float 1 ->
  fold_left cadd
    (map2 cmul (map conj (repeat czero m))
       (update (repeat czero m) j (of_float 1))) acc
  = acc.
Proof.
  revert j acc. induction m as [|m IH]; intros j acc Hacc; [reflexivity|].
  destruct j as [|j]; simpl.
  - change (cmul (conj czero) (of_float 1)) with czero.
    rewrite fold_zeros; destruct Hacc as [-> | ->]; auto.
  - change (cmul (conj czero) czero) with czero.
    rewrite IH; destruct Hacc as [-> | ->]; auto.
Qed.

Lemma fold_hot_zeros (m j : nat) (acc : complex128) :
  acc = czero \/ acc = of_float 1 ->
  fold_left cadd
    (map2 cmul (map conj (update (repeat czero m) j (of_float 1)))
       (repeat czero m)) acc
  = acc.
Proof.
  revert j acc. induction m as [|m IH]; intros j acc Hacc; [reflexivity|].
  destruct j as [|j]; simpl.
  - change (cmul (conj (of_float 1)) czero) with czero.
    rewrite fold_zeros; destruct Hacc as [-> | ->]; auto.
  - change (cmul (conj czero) czero) with czero.
    rewrite IH; destruct Hacc as [-> | ->]; auto.
Qed.

Lemma fold_hot_hot (m j j' : nat) :
  (j < m)%nat -> (j' < m)%nat ->
  fold_left cadd
    (map2 cmul (map conj (update (repeat czero m) j (of_float 1)))
       (update (repeat czero m) j' (of_float 1))) czero
  = if (j =? j')%nat then of_float 1 else czero.
Proof.
  revert j j'. induction m as [|m IH]; intros j j' Hj Hj'; [lia|].
  destruct j as [|j], j' as [|j']; simpl.
  - change (cadd czero (cmul (conj (of_float 1)) (of_float 1)))
      with (of_float 1).
    apply fold_zeros. auto.
  - change (cadd czero (cmul (conj (of_float 1)) czero)) with czero.
    apply fold_zeros_hot. auto.
  - change (cadd czero (cmul (conj czero) (of_float 1))) with czero.
    apply fold_hot_zeros. auto.
  - change (cadd czero (cmul (conj czero) czero)) with czero.
    apply IH; lia.
Qed.

Lemma zip_equal_zeros (m : nat) :
  zip_equal (repeat czero m) (repeat czero m) = true.
Proof. induction m as [|m IH]; [reflexivity | exact IH]. Qed.

Lemma zip_equal_hot (m j j' : nat) :
  (j < m)%nat -> (j' < m)%nat ->
  zip_equal (update (repeat czero m) j (of_float 1))
    (update (repeat czero m) j' (of_float 1))
  = (j =? j')%nat.
Proof.
  revert j j'. induction m as [|m IH]; intros j j' Hj Hj'; [lia|].
  destruct j as [|j], j' as [|j']; simpl; try reflexivity.
  - apply zip_equal_zeros.
  - change (cne czero czero) with false. cbv iota. apply IH; lia.
Qed.

Lemma prob_of_state_value (s t : State.t) (c : complex128) :
  __mul__ s (PState t) = Ok (PNum c) ->
  prob_of_state s t true
  = Ok (square (cabs c) / (inner_self s * inner_self t))%float.
Proof.
  intros M. unfold prob_of_state. rewrite M, !mul_self. reflexivity.
Qed.

(** X23: the States that the factory builds for two labels [b] and [b']
    of the same number of qubits are orthonormal: their inner product is
    exactly 1 when the labels are the same and exactly 0 when they differ,
    [prob_of_state] of the one in the other is 1 or 0 accordingly, and
    they compare equal exactly when the labels are the same. *)
Theorem basis_states_orthonormal (n b b' : Z) :
  (0 <= n)%Z -> (0 <= b < 2 ^ n)%Z -> (0 <= b' < 2 ^ n)%Z ->
  exists s t : State.t,
    from_basis_state n b = Ok s
    /\ from_basis_state n b' = Ok t
    /\ __mul__ s (PState t)
       = Ok (PNum (if (b =? b')%Z then of_float 1 else czero))
    /\ prob_of_state s t true
       = Ok (if (b =? b')%Z then 1%float else 0%float)
    /\ __eq__ s (PState t) = Ok (b =? b')%Z.
Proof.
  intros Hn Hb Hb'.
  exists (State.Build (one_hot (2 ^ n) (Z.to_nat b)) (2 ^ n) n),
         (State.Build (one_hot (2 ^ n) (Z.to_nat b')) (2 ^ n) n).
  split; [apply from_basis_state_in_range; assumption|].
  split; [apply from_basis_state_in_range; assumption|].
  assert (E : (Z.to_nat b =? Z.to_nat b')%nat = (b =? b')%Z).
  { destruct (Nat.eqb_spec (Z.to_nat b) (Z.to_nat b')), (Z.eqb_spec b b');
      try reflexivity; lia. }
  assert (M : __mul__
                (State.Build (one_hot (2 ^ n) (Z.to_nat b)) (2 ^ n) n)
                (PState
                   (State.Build (one_hot (2 ^ n) (Z.to_nat b')) (2 ^ n) n))
              = Ok (PNum (if (b =? b')%Z then of_float 1 else czero))).
  { unfold __mul__, dot. simpl.
    rewrite length_map, !one_hot_length, Nat.eqb_refl. simpl.
    unfold one_hot, zeros. rewrite fold_hot_hot by lia. rewrite E.
    reflexivity. }
  split; [exact M|]. split.
  - rewrite (prob_of_state_value _ _ _ M).
    rewrite !basis_state_inner by assumption.
    destruct (b =? b')%Z; reflexivity.
  - unfold __eq__. simpl. rewrite Z.eqb_refl. simpl.
    unfold one_hot, zeros. rewrite zip_equal_hot by lia. rewrite E.
    reflexivity.
Qed.

Lemma basis_states_orthonormal_witness :
  exists s t : State.t,
    from_basis_state 2 1 = Ok s
    /\ from_basis_state 2 3 = Ok t
    /\ __mul__ s (PState t) = Ok (PNum czero)
    /\ prob_of_state s t true = Ok 0%float
    /\ __eq__ s (PState t) = Ok false.
Proof. apply (basis_states_orthonormal 2 1 3); lia. Defined.

(** ** The labels of the factory and the crossing of the draw *)

(** X24: the factory over all its arguments: a negative number of qubits
    is a [ValueError]; for [n] qubits, a label of [2^n] or more is refused
    by the assertion, a label below [-2^n] is an [IndexError], and every
    label from [-2^n] to [2^n - 1] gives the State of [2^n] amplitudes
    that is 1 at the place the label names, counted from the end when the
    label is negative, and 0 elsewhere. *)
Theorem from_basis_state_labels (n b : Z) :
  ((n < 0)%Z -> from_basis_state n b = Raise ValueError)
  /\ ((0 <= n)%Z ->
      ((2 ^ n <= b)%Z -> from_basis_state n b = Raise AssertionError)
      /\ ((b < - 2 ^ n)%Z -> from_basis_state n b = Raise IndexError)
      /\ ((- 2 ^ n <= b < 2 ^ n)%Z ->
          from_basis_state n b
          = Ok (State.Build
                  (one_hot (2 ^ n) (position (Z.to_nat (2 ^ n)) b))
                  (2 ^ n) n)
          /\ forall i : nat,
               nth i (one_hot (2 ^ n) (position (Z.to_nat (2 ^ n)) b)) czero
               = if (i =? position (Z.to_nat (2 ^ n)) b)%nat
                 then of_float 1 else czero)).
Proof.
  split.
  - intros Hn. unfold from_basis_state, lshift.
    destruct (n <? 0)%Z eqn:E; [reflexivity | lia].
  - intros Hn.
    assert (Hpos : (0 < 2 ^ n)%Z) by (apply Z.pow_pos_nonneg; lia).
    split; [apply from_basis_state_too_large; assumption|].
    split; [apply from_basis_state_far_negative; assumption|].
    intros Hb. split.
    + unfold position. rewrite Z2Nat.id by lia.
      destruct (b <? 0)%Z eqn:E.
      * apply from_basis_state_negative; lia.
      * apply from_basis_state_in_range; lia.
    + intros i. apply nth_one_hot. unfold position.
      rewrite Z2Nat.id by lia. destruct (b <? 0)%Z eqn:E; lia.
Qed.

Lemma from_basis_state_labels_witness :
  from_basis_state 2 (-3)
  = Ok (State.Build (one_hot (2 ^ 2) (position (Z.to_nat (2 ^ 2)) (-3)))
          (2 ^ 2) 2)
  /\ forall i : nat,
       nth i (one_hot (2 ^ 2) (position (Z.to_nat (2 ^ 2)) (-3))) czero
       = if (i =? position (Z.to_nat (2 ^ 2)) (-3))%nat
         then of_float 1 else czero.
Proof.
  destruct (from_basis_state_labels 2 (-3)) as [_ H].
  apply H; simpl; lia.
Defined.

(** On [State([1, 1, 0, 0])] the draw [0.75] is first reached at the
    label 1. *)
Lemma random_measure_bs_reached_witness :
  exists k : nat,
    random_measure_bs st_1100 0.75%float = Some (Ok (Z.of_nat k))
    /\ (k < List.length (amplitudes st_1100))%nat
    /\ (0.75 <=? running_sum st_1100 k)%float = true
    /\ forall j : nat,
         (j < k)%nat -> (0.75 <=? running_sum st_1100 j)%float = false.
Proof.
  apply (random_measure_bs_reached st_1100 0.75%float).
  exists 1%nat. split; [simpl; lia | reflexivity].
Defined.

(** * The modulus, the squared norm and the scalar product in float terms *)

(** ** Commutativity of the binary64 sum, and squares of absolute values *)

Module FloatComm.

Open Scope float_scope.

Lemma SFadd_comm (x y : spec_float) :
  SFadd prec emax x y = SFadd prec emax y x.
Proof.
  destruct x as [sx|sx| |sx mx ex], y as [sy|sy| |sy my ey]; simpl;
    try reflexivity; try (destruct sx, sy; reflexivity).
  rewrite (Z.min_comm ey ex).
  rewrite (Z.add_comm
             (cond_Zopp sy (Z.pos (fst (shl_align my ey (Z.min ex ey)))))).
  reflexivity.
Qed.

Lemma add_comm (x y : float) : x + y = y + x.
Proof. apply Prim2SF_inj. rewrite !add_spec. apply SFadd_comm. Qed.





End FloatComm.

(** ** The squared modulus of an amplitude on an axis *)



(** ** The squared norm as a sum of squares *)



Lemma valid_st_34_12 : valid st_34_12.
Proof. apply (init_ok_inv [Complex 3 4; Complex 0 12]). reflexivity. Qed.



(** ** The product with a scalar *)

Lemma cmul_comm (c a : complex128) : cmul c a = cmul a c.
Proof.
  unfold cmul. f_equal.
  - rewrite (mul_comm (real c)), (mul_comm (imag c)). reflexivity.
  - rewrite (mul_comm (real c)), (mul_comm (imag c)).
    apply FloatComm.add_comm.
Qed.

(** C9: for a State [s] and a complex number [c], [c * s] (which Python
    hands to [__rmul__]) and [s * c] are the same new State, of the size of
    [s]; its amplitude at every label is the complex product of [c] and
    the amplitude [a] of [s] there, [(cr*ar - ci*ai) + (cr*ai + ci*ar) j],
    which is bit for bit the product taken in the other order,
    [(ar*cr - ai*ci) + (ar*ci + ai*cr) j].  [(1+2j) * State([3+4j, 12j])]
    is [State([-5+10j, -24+12j])], from either side. *)
Theorem scalar_mul_either_side :
  (forall (s : State.t) (c : complex128),
     valid s ->
     __rmul__ s (PNum c) = __mul__ s (PNum c)
     /\ exists r : State.t,
          __mul__ s (PNum c) = Ok (PState r)
          /\ basis_size r = basis_size s
          /\ qubit_count r = qubit_count s
          /\ List.length (amplitudes r) = List.length (amplitudes s)
          /\ forall i : nat,
               (i < List.length (amplitudes s))%nat ->
               nth i (amplitudes r) czero
               = Complex
                   (real c * real (nth i (amplitudes s) czero)
                    - imag c * imag (nth i (amplitudes s) czero))%float
                   (real c * imag (nth i (amplitudes s) czero)
                    + imag c * real (nth i (amplitudes s) czero))%float
               /\ nth i (amplitudes r) czero
                  = Complex
                      (real (nth i (amplitudes s) czero) * real c
                       - imag (nth i (amplitudes s) czero) * imag c)%float
                      (real (nth i (amplitudes s) czero) * imag c
                       + imag (nth i (amplitudes s) czero) * real c)%float)
  /\ __mul__ st_34_12 (PNum (Complex 1 2))
     = Ok (PState (State.Build [Complex (-5) 10; Complex (-24) 12] 2 1))
  /\ __rmul__ st_34_12 (PNum (Complex 1 2))
     = Ok (PState (State.Build [Complex (-5) 10; Complex (-24) 12] 2 1)).
Proof.
  split; [|split; reflexivity].
  intros s c Hs. split; [reflexivity|].
  exists (State.Build (map (cmul c) (amplitudes s))
            (basis_size s) (qubit_count s)).
  simpl.
  rewrite (init_valid s (map (cmul c) (amplitudes s)))
    by auto using length_map.
  simpl. repeat split; auto using length_map.
  - rewrite nth_map_in by assumption. reflexivity.
  - rewrite nth_map_in by assumption. rewrite cmul_comm. reflexivity.
Qed.

Lemma scalar_mul_either_side_witness :
  __rmul__ st_34_12 (PNum (Complex 1 2))
  = __mul__ st_34_12 (PNum (Complex 1 2))
  /\ exists r : State.t,
       __mul__ st_34_12 (PNum (Complex 1 2)) = Ok (PState r)
       /\ basis_size r = basis_size st_34_12
       /\ qubit_count r = qubit_count st_34_12
       /\ List.length (amplitudes r) = List.length (amplitudes st_34_12)
       /\ forall i : nat,
            (i < List.length (amplitudes st_34_12))%nat ->
            nth i (amplitudes r) czero
            = Complex
                (real (Complex 1 2)
                 * real (nth i (amplitudes st_34_12) czero)
                 - imag (Complex 1 2)
                   * imag (nth i (amplitudes st_34_12) czero))%float
                (real (Complex 1 2)
                 * imag (nth i (amplitudes st_34_12) czero)
                 + imag (Complex 1 2)
                   * real (nth i (amplitudes st_34_12) czero))%float
            /\ nth i (amplitudes r) czero
               = Complex
                   (real (nth i (amplitudes st_34_12) czero)
                    * real (Complex 1 2)
                    - imag (nth i (amplitudes st_34_12) czero)
                      * imag (Complex 1 2))%float
                   (real (nth i (amplitudes st_34_12) czero)
                    * imag (Complex 1 2)
                    + imag (nth i (amplitudes st_34_12) czero)
                      * real (Complex 1 2))%float.
Proof.
  exact (proj1 scalar_mul_either_side st_34_12 (Complex 1 2)
           valid_st_34_12).
Defined.
